(** * tinyland-activity-feed: a shallow embedding of config.ts and feed.ts

    The package aggregates three content sources (blog posts, profiles,
    products) behind injected loader callbacks, normalizes every raw item
    into an [ActivityItem], sorts the aggregate by date and answers five
    read-only queries.

    Conventions of the embedding:
    - a JavaScript string is a [string], read as a sequence of code units
      below 256 (the Latin-1 range), with the case mapping and the white
      space of that range;
    - an optional field [f?: string] is an [option string], [None] standing
      for [undefined];
    - the two process-wide effects of the code, the [_config] singleton and
      the wall clock read by [new Date()], live in an explicit [World] that
      every operation threads, together with a log of loader invocations;
    - a loader either returns an array or throws. *)

From Stdlib Require Import List String Ascii ZArith NArith Bool Lia Arith.
From Stdlib Require Import Permutation Sorted.
Import ListNotations.

Open Scope string_scope.
Open Scope list_scope.

(** ** JavaScript builtins used by the package *)

Module JS.

(** A loosely typed field value, for the fields the code compares with
    [===]. *)
Inductive value :=
| VUndefined
| VNull
| VBool (b : bool)
| VNumber (n : Z)
| VNaN
| VString (s : string).

(** [a === b] *)
Definition strictEq (a b : value) : bool :=
  match a, b with
  | VUndefined, VUndefined => true
  | VNull, VNull => true
  | VBool x, VBool y => Bool.eqb x y
  | VNumber x, VNumber y => Z.eqb x y
  | VString x, VString y => String.eqb x y
  | _, _ => false
  end.

(** ToBoolean *)
Definition toBoolean (a : value) : bool :=
  match a with
  | VUndefined | VNull | VNaN => false
  | VBool b => b
  | VNumber n => negb (Z.eqb n 0)
  | VString s => negb (String.eqb s "")
  end.

(** ToBoolean on an optional string: [undefined] and [''] are falsy. *)
Definition truthy (a : option string) : bool :=
  match a with
  | Some s => negb (String.eqb s "")
  | None => false
  end.

(** [a || b] on optional strings. *)
Definition or (a b : option string) : option string :=
  if truthy a then a else b.

(** [a || 'literal'], whose value is always a string. *)
Definition orString (a : option string) (d : string) : string :=
  match a with
  | Some s => if String.eqb s "" then d else s
  | None => d
  end.

(** [a || []] on optional arrays: every array is truthy. *)
Definition orArray {A} (a : option (list A)) (d : list A) : list A :=
  match a with
  | Some l => l
  | None => d
  end.

(** [a === s] for an optional string [a] and a string [s]. *)
Definition optEq (a : option string) (s : string) : bool :=
  match a with
  | Some x => String.eqb x s
  | None => false
  end.

(** [String.prototype.toLowerCase]: the capital letters below 256 are A-Z
    (65-90) and, but for the multiplication sign 215, the range 192-222;
    each is 32 below its small letter. *)
Definition isUpper (n : N) : bool :=
  ((65 <=? n) && (n <=? 90)
   || (192 <=? n) && (n <=? 222) && negb (n =? 215))%N.

Definition lowerChar (c : ascii) : ascii :=
  let n := N_of_ascii c in
  if isUpper n then ascii_of_N (n + 32) else c.

Fixpoint toLowerCase (s : string) : string :=
  match s with
  | EmptyString => EmptyString
  | String c r => String (lowerChar c) (toLowerCase r)
  end.

(** White space and line terminators as [String.prototype.trim] sees them,
    below 256: TAB, LF, VT, FF, CR, the space and the no-break space. *)
Definition isWhiteSpace (c : ascii) : bool :=
  let n := N_of_ascii c in
  ((9 <=? n)%N && (n <=? 13)%N) || (n =? 32)%N || (n =? 160)%N.

Fixpoint trimStart (s : string) : string :=
  match s with
  | EmptyString => EmptyString
  | String c r => if isWhiteSpace c then trimStart r else s
  end.

Fixpoint trimEnd (s : string) : string :=
  match s with
  | EmptyString => EmptyString
  | String c r =>
      match trimEnd r with
      | EmptyString => if isWhiteSpace c then EmptyString else String c EmptyString
      | r' => String c r'
      end
  end.

Definition trim (s : string) : string := trimEnd (trimStart s).

(** [s.includes(t)] *)
Fixpoint includes (s t : string) : bool :=
  if String.prefix t s then true
  else match s with
       | EmptyString => false
       | String _ r => includes r t
       end.

(** [l.slice(0, e)] for an integer [e]: a negative end counts from the
    back of the array. *)
Definition slice0 {A} (l : list A) (e : Z) : list A :=
  let len := Z.of_nat (List.length l) in
  let final := if (e <? 0)%Z then Z.max (len + e) 0 else Z.min e len in
  firstn (Z.to_nat final) l.

(** [Array.prototype.sort(comparefn)].  The comparator yields a number or
    NaN ([None]); SortCompare reads NaN as +0.  The sort is a stable
    insertion sort: an element moves left only past the elements it must
    strictly precede.  The array is kept reversed while it is built, so
    [insert] meets the last element first.  For a consistent comparator
    every stable sort yields this same array; for an inconsistent one (NaN
    answers) ECMAScript leaves the order to the engine. *)
Definition sortCompare {A} (comparefn : A -> A -> option Z) (x y : A) : Z :=
  match comparefn x y with
  | Some v => v
  | None => 0%Z
  end.

Fixpoint insert {A} (comparefn : A -> A -> option Z) (x : A) (sortedRev : list A)
  : list A :=
  match sortedRev with
  | [] => [x]
  | y :: r =>
      if (sortCompare comparefn x y <? 0)%Z
      then y :: insert comparefn x r
      else x :: sortedRev
  end.

Definition sort {A} (comparefn : A -> A -> option Z) (l : list A) : list A :=
  rev (fold_left (fun acc x => insert comparefn x acc) l []).

End JS.

(** ** Date parsing

    [new Date(s).getTime()] is a parameter of the development (see
    [Section Feed]).  [IsoDate.getTime] is the instance used on concrete
    data: it reads the ISO-8601 forms [YYYY-MM-DD],
    [YYYY-MM-DDTHH:mm:ssZ] and [YYYY-MM-DDTHH:mm:ss.sssZ] as UTC and gives
    the milliseconds since the epoch; any other string is an invalid date,
    whose time value is NaN ([None]). *)

Module IsoDate.

Definition digit (c : ascii) : option Z :=
  let n := N_of_ascii c in
  if (48 <=? n)%N && (n <=? 57)%N then Some (Z.of_N (n - 48)) else None.

Fixpoint number (acc : Z) (cs : list ascii) : option Z :=
  match cs with
  | [] => Some acc
  | c :: r =>
      match digit c with
      | Some d => number (acc * 10 + d) r
      | None => None
      end
  end.

Definition isLeap (y : Z) : bool :=
  ((y mod 4 =? 0) && negb (y mod 100 =? 0) || (y mod 400 =? 0))%Z.

Definition daysInMonth (y m : Z) : Z :=
  (if m =? 2 then (if isLeap y then 29 else 28)
   else if (m =? 4) || (m =? 6) || (m =? 9) || (m =? 11) then 30
   else 31)%Z.

(** Days from 1970-01-01 to the civil date [y]-[m]-[d]. *)
Definition daysFromCivil (y m d : Z) : Z :=
  (let y' := if m <=? 2 then y - 1 else y in
   let era := y' / 400 in
   let yoe := y' - era * 400 in
   let mp := if m <=? 2 then m + 9 else m - 3 in
   let doy := (153 * mp + 2) / 5 + d - 1 in
   let doe := yoe * 365 + yoe / 4 - yoe / 100 + doy in
   era * 146097 + doe - 719468)%Z.

Definition dateOnly (cs : list ascii) : option Z :=
  match cs with
  | [y1; y2; y3; y4; "-"%char; m1; m2; "-"%char; d1; d2] =>
      match number 0 [y1; y2; y3; y4], number 0 [m1; m2], number 0 [d1; d2] with
      | Some y, Some m, Some d =>
          if ((1 <=? m) && (m <=? 12) && (1 <=? d) && (d <=? daysInMonth y m))%Z
          then Some (daysFromCivil y m d * 86400000)%Z
          else None
      | _, _, _ => None
      end
  | _ => None
  end.

Definition timeOfDay (cs : list ascii) : option Z :=
  let hms h1 h2 m1 m2 s1 s2 ms :=
    match number 0 [h1; h2], number 0 [m1; m2], number 0 [s1; s2] with
    | Some h, Some m, Some s =>
        if ((h <=? 23) && (m <=? 59) && (s <=? 59))%Z
        then Some (((h * 60 + m) * 60 + s) * 1000 + ms)%Z
        else None
    | _, _, _ => None
    end in
  match cs with
  | [h1; h2; ":"%char; m1; m2; ":"%char; s1; s2; "Z"%char] =>
      hms h1 h2 m1 m2 s1 s2 0%Z
  | [h1; h2; ":"%char; m1; m2; ":"%char; s1; s2; "."%char; f1; f2; f3; "Z"%char] =>
      match number 0 [f1; f2; f3] with
      | Some ms => hms h1 h2 m1 m2 s1 s2 ms
      | None => None
      end
  | _ => None
  end.

Definition getTime (s : string) : option Z :=
  let cs := list_ascii_of_string s in
  match skipn 10 cs with
  | [] => dateOnly cs
  | "T"%char :: t =>
      match dateOnly (firstn 10 cs), timeOfDay t with
      | Some d, Some ms => Some (d + ms)%Z
      | _, _ => None
      end
  | _ => None
  end.

End IsoDate.

(** ** types.ts: the data model *)

Inductive ActivityType := Post | Profile | Product.

Definition ActivityType_eqb (a b : ActivityType) : bool :=
  match a, b with
  | Post, Post | Profile, Profile | Product, Product => true
  | _, _ => false
  end.

Record ActivityItem := {
  type : ActivityType;
  title : string;
  slug : string;
  excerpt : string;
  date : string;
  image : option string;
  author : option string;
  category : option string;
  tags : option (list string);
  productCategory : option string;
  profileRole : option string;
  license : option string
}.

(** [author?: string | { name: string }] *)
Inductive Author :=
| AuthorString (s : string)
| AuthorObject (name : string).

Module BlogPostItem.
Record t := {
  title : string;
  slug : string;
  excerpt : option string;
  description : option string;
  date : option string;
  publishedAt : option string;
  featuredImage : option string;
  coverImage : option string;
  heroImage : option string;
  author : option Author;
  category : option string;
  categories : option (list string);
  tags : option (list string);
  published : JS.value;
  draft : JS.value
}.
End BlogPostItem.

Module ProfileItem.
Record t := {
  name : option string;
  displayName : option string;
  slug : string;
  bio : option string;
  publishedAt : option string;
  updatedAt : option string;
  joinedDate : option string;
  avatar : option string;
  imageUrl : option string;
  role : option string;
  tags : option (list string);
  interests : option (list string)
}.
End ProfileItem.

Module ProductItem.
Record t := {
  name : string;
  slug : string;
  excerpt : option string;
  description : option string;
  publishedAt : option string;
  updatedAt : option string;
  image : option string;
  category : option string;
  tags : option (list string);
  license : option string
}.
End ProductItem.

(** A loader is a zero-argument callback that returns an array or throws. *)
Inductive outcome (A : Type) :=
| Returns (items : list A)
| Throws.
Arguments Returns {A} items.
Arguments Throws {A}.

Definition Loader (A : Type) := unit -> outcome A.

(** A property of the configuration object: missing, present with the value
    [undefined], or present with a function. *)
Inductive Slot (A : Type) :=
| Absent
| Undefined
| Fn (f : Loader A).
Arguments Absent {A}.
Arguments Undefined {A}.
Arguments Fn {A} f.

Record ActivityFeedConfig := {
  loadBlogPosts : Slot BlogPostItem.t;
  loadProfiles : Slot ProfileItem.t;
  loadProducts : Slot ProductItem.t
}.

(** Reading a property: a missing one reads as [undefined]. *)
Definition get {A} (s : Slot A) : option (Loader A) :=
  match s with
  | Fn f => Some f
  | Absent | Undefined => None
  end.

(** ** The world: the [_config] singleton, the wall clock, the call log *)

Inductive LoaderName := LoadBlogPosts | LoadProfiles | LoadProducts.

Record World := {
  _config : ActivityFeedConfig;
  clock : nat -> string;          (* the successive values of new Date().toISOString() *)
  calls : list LoaderName         (* the loaders invoked so far, oldest first *)
}.

Definition M (A : Type) := World -> A * World.

Definition ret {A} (a : A) : M A := fun w => (a, w).

Definition bind {A B} (m : M A) (k : A -> M B) : M B :=
  fun w => let (a, w') := m w in k a w'.

Notation "x <- m ;; k" := (bind m (fun x => k))
  (at level 61, m at next level, right associativity).

(** [new Date().toISOString()] *)
Definition nowISOString : M string :=
  fun w => (clock w 0,
            {| _config := _config w;
               clock := fun n => clock w (S n);
               calls := calls w |}).

(** Calling a configured loader. *)
Definition invoke {A} (name : LoaderName) (f : Loader A) : M (outcome A) :=
  fun w => (f tt,
            {| _config := _config w;
               clock := clock w;
               calls := calls w ++ [name] |}).

(** ** config.ts *)

Definition emptyConfig : ActivityFeedConfig :=
  {| loadBlogPosts := Absent; loadProfiles := Absent; loadProducts := Absent |}.

(** One property of [{ ...a, ...b }]. *)
Definition spread {A} (a b : Slot A) : Slot A :=
  match b with
  | Absent => a
  | _ => b
  end.

Definition setConfig (c : ActivityFeedConfig) : M unit :=
  fun w => (tt, {| _config := c; clock := clock w; calls := calls w |}).

Definition configure (config : ActivityFeedConfig) : M unit :=
  fun w =>
    setConfig
      {| loadBlogPosts := spread (loadBlogPosts (_config w)) (loadBlogPosts config);
         loadProfiles := spread (loadProfiles (_config w)) (loadProfiles config);
         loadProducts := spread (loadProducts (_config w)) (loadProducts config) |} w.

Definition getConfig : M ActivityFeedConfig :=
  fun w =>
    ({| loadBlogPosts := spread Absent (loadBlogPosts (_config w));
        loadProfiles := spread Absent (loadProfiles (_config w));
        loadProducts := spread Absent (loadProducts (_config w)) |}, w).

Definition resetConfig : M unit := setConfig emptyConfig.

(** ** feed.ts: the normalizers *)

(** [a || new Date().toISOString()]: the clock is read only when [a] is
    falsy. *)
Definition orNow (a : option string) : M string :=
  match a with
  | Some s => if String.eqb s "" then nowISOString else ret s
  | None => nowISOString
  end.

Definition blogPostToActivity (post : BlogPostItem.t) : M (option ActivityItem) :=
  if JS.strictEq (BlogPostItem.published post) (JS.VBool false)
     || JS.strictEq (BlogPostItem.draft post) (JS.VBool true)
  then ret None
  else
    date <- orNow (JS.or (BlogPostItem.date post) (BlogPostItem.publishedAt post)) ;;
    let author :=
      match BlogPostItem.author post with
      | Some (AuthorObject name) => name
      | Some (AuthorString s) => JS.orString (Some s) "Unknown"
      | None => "Unknown"
      end in
    ret (Some
      {| type := Post;
         title := JS.orString (Some (BlogPostItem.title post)) (BlogPostItem.slug post);
         slug := BlogPostItem.slug post;
         excerpt :=
           JS.orString
             (JS.or (BlogPostItem.excerpt post) (BlogPostItem.description post)) "";
         date := date;
         image :=
           JS.or (JS.or (BlogPostItem.featuredImage post) (BlogPostItem.coverImage post))
                 (BlogPostItem.heroImage post);
         author := Some author;
         category :=
           JS.or (match BlogPostItem.categories post with
                  | Some (c :: _) => Some c
                  | _ => None
                  end)
                 (BlogPostItem.category post);
         tags := Some (JS.orArray (BlogPostItem.tags post) []);
         productCategory := None;
         profileRole := None;
         license := None |}).

Definition profileToActivity (profile : ProfileItem.t) : M ActivityItem :=
  date <- orNow (JS.or (JS.or (ProfileItem.publishedAt profile)
                              (ProfileItem.updatedAt profile))
                       (ProfileItem.joinedDate profile)) ;;
  let name :=
    JS.orString (JS.or (ProfileItem.name profile) (ProfileItem.displayName profile))
                "Community Member" in
  ret {| type := Profile;
         title := name;
         slug := ProfileItem.slug profile;
         excerpt := JS.orString (ProfileItem.bio profile) "";
         date := date;
         image := JS.or (ProfileItem.avatar profile) (ProfileItem.imageUrl profile);
         author := Some name;
         category := Some "profile";
         tags :=
           Some (match ProfileItem.tags profile with
                 | Some l => l
                 | None => JS.orArray (ProfileItem.interests profile) []
                 end);
         productCategory := None;
         profileRole := ProfileItem.role profile;
         license := None |}.

Definition productToActivity (product : ProductItem.t) : M ActivityItem :=
  date <- orNow (JS.or (ProductItem.publishedAt product)
                       (ProductItem.updatedAt product)) ;;
  ret {| type := Product;
         title := ProductItem.name product;
         slug := ProductItem.slug product;
         excerpt :=
           JS.orString
             (JS.or (ProductItem.excerpt product) (ProductItem.description product)) "";
         date := date;
         image := ProductItem.image product;
         author := None;
         category := Some "product";
         tags := Some (JS.orArray (ProductItem.tags product) []);
         productCategory := ProductItem.category product;
         profileRole := None;
         license := ProductItem.license product |}.

(** ** feed.ts: the aggregator and the five queries *)

(** The loop [for (const x of xs) activities.push(f(x))]. *)
Fixpoint pushAll {A} (f : A -> M ActivityItem) (xs : list A)
  (activities : list ActivityItem) : M (list ActivityItem) :=
  match xs with
  | [] => ret activities
  | x :: rest =>
      item <- f x ;;
      pushAll f rest (activities ++ [item])
  end.

(** The same loop for posts, which skips the [null] results. *)
Fixpoint pushPosts (posts : list BlogPostItem.t)
  (activities : list ActivityItem) : M (list ActivityItem) :=
  match posts with
  | [] => ret activities
  | post :: rest =>
      item <- blogPostToActivity post ;;
      match item with
      | Some it => pushPosts rest (activities ++ [it])
      | None => pushPosts rest activities
      end
  end.

(** [if (config.loader) { try { const xs = config.loader(); body } catch {} }] *)
Definition tryLoad {A} (name : LoaderName) (slot : Slot A)
  (body : list A -> list ActivityItem -> M (list ActivityItem))
  (activities : list ActivityItem) : M (list ActivityItem) :=
  match get slot with
  | Some f =>
      r <- invoke name f ;;
      match r with
      | Returns xs => body xs activities
      | Throws => ret activities
      end
  | None => ret activities
  end.

(** [loadAllActivity] up to its sort: the normalized union of the sources. *)
Definition collectActivity : M (list ActivityItem) :=
  config <- getConfig ;;
  a1 <- tryLoad LoadBlogPosts (loadBlogPosts config) pushPosts [] ;;
  a2 <- tryLoad LoadProfiles (loadProfiles config) (pushAll profileToActivity) a1 ;;
  tryLoad LoadProducts (loadProducts config) (pushAll productToActivity) a2.

Section Feed.

(** [new Date(s).getTime()]; [None] is NaN, the time value of an invalid
    date. *)
Variable getTime : string -> option Z.

(** The comparator [(a, b) => dateB - dateA].  Time values are integers, so
    the sign of the floating-point difference is the sign of the exact
    one; a NaN operand makes the difference NaN. *)
Definition compareFn (a b : ActivityItem) : option Z :=
  match getTime (date a), getTime (date b) with
  | Some dateA, Some dateB => Some (dateB - dateA)%Z
  | _, _ => None
  end.

Definition loadAllActivity : M (list ActivityItem) :=
  activities <- collectActivity ;;
  ret (JS.sort compareFn activities).

(** [limit !== undefined ? filtered.slice(0, limit) : filtered] *)
Definition limited (filtered : list ActivityItem) (limit : option Z)
  : list ActivityItem :=
  match limit with
  | Some n => JS.slice0 filtered n
  | None => filtered
  end.

(** [limit: number = 10]: an omitted argument is [None]. *)
Definition getRecentActivityServer (limit : option Z) : M (list ActivityItem) :=
  let limit := match limit with Some n => n | None => 10%Z end in
  activities <- loadAllActivity ;;
  ret (JS.slice0 activities limit).

Definition getActivityByTypeServer (type' : ActivityType) (limit : option Z)
  : M (list ActivityItem) :=
  allActivity <- loadAllActivity ;;
  let filtered :=
    filter (fun item => ActivityType_eqb (type item) type') allActivity in
  ret (limited filtered limit).

Definition getActivityByCategoryServer (category' : string) (limit : option Z)
  : M (list ActivityItem) :=
  allActivity <- loadAllActivity ;;
  let filtered :=
    filter (fun item => JS.optEq (category item) category'
                        || JS.optEq (productCategory item) category')
           allActivity in
  ret (limited filtered limit).

(** [item.tags?.includes(tag)] *)
Definition hasTag (tag : string) (item : ActivityItem) : bool :=
  match tags item with
  | Some l => existsb (String.eqb tag) l
  | None => false
  end.

Definition getActivityByTagServer (tag : string) (limit : option Z)
  : M (list ActivityItem) :=
  allActivity <- loadAllActivity ;;
  let filtered := filter (hasTag tag) allActivity in
  ret (limited filtered limit).

(** The predicate of the search filter, for a lowercased search term. *)
Definition searchMatches (searchTerm : string) (item : ActivityItem) : bool :=
  if JS.includes (JS.toLowerCase (title item)) searchTerm then true
  else if JS.includes (JS.toLowerCase (excerpt item)) searchTerm then true
  else if match author item with
          | Some a => JS.includes (JS.toLowerCase a) searchTerm
          | None => false
          end then true
  else if match tags item with
          | Some l => existsb (fun tag => JS.includes (JS.toLowerCase tag) searchTerm) l
          | None => false
          end then true
  else false.

(** [!query || query.trim() === ''] *)
Definition blankQuery (query : string) : bool :=
  String.eqb query "" || String.eqb (JS.trim query) "".

Definition searchActivityServer (query : string) (limit : option Z)
  : M (list ActivityItem) :=
  if blankQuery query then ret []
  else
    allActivity <- loadAllActivity ;;
    let searchTerm := JS.toLowerCase query in
    let filtered := filter (searchMatches searchTerm) allActivity in
    ret (limited filtered limit).

End Feed.

(** ** Specification vocabulary *)

(** [a] is at least as recent as [b]; an invalid date is ordered with
    nothing, as a NaN time value compares false with everything. *)
Definition newerOrSame (getTime : string -> option Z) (a b : ActivityItem) : Prop :=
  match getTime (date a), getTime (date b) with
  | Some ta, Some tb => (tb <= ta)%Z
  | _, _ => False
  end.


(** Sorted by date descending, most recent first. *)
Definition DateDescending (getTime : string -> option Z) (l : list ActivityItem) : Prop :=
  Sorted (newerOrSame getTime) l.


(** The date of the item is a valid one. *)
Definition validDate (getTime : string -> option Z) (x : ActivityItem) : bool :=
  match getTime (date x) with
  | Some _ => true
  | None => false
  end.

(** The time value used as the sort key where the date is valid. *)
Definition timeOf (getTime : string -> option Z) (x : ActivityItem) : Z :=
  match getTime (date x) with
  | Some t => t
  | None => 0%Z
  end.

(** [t] occurs inside [s]. *)
Definition Infix (t s : string) : Prop :=
  exists pre post, s = (pre ++ t ++ post)%string.

Definition allWhite (s : string) : bool :=
  forallb JS.isWhiteSpace (list_ascii_of_string s).

(** The string has a character that is not white space. *)
Definition NonBlank (s : string) : Prop :=
  exists c, In c (list_ascii_of_string s) /\ JS.isWhiteSpace c = false.

(** [text] is one of the searched texts of the item: its title, its
    excerpt, its author when there is one, or one of its tags. *)
Definition SearchedText (item : ActivityItem) (text : string) : Prop :=
  text = title item \/ text = excerpt item \/ author item = Some text \/
  exists l, tags item = Some l /\ In text l.

(** The search criterion in the words of the specification. *)
Definition MatchesQuery (q : string) (item : ActivityItem) : Prop :=
  exists text, SearchedText item text /\
               Infix (JS.toLowerCase q) (JS.toLowerCase text).

(** A post is hidden when [published === false] or [draft === true]. *)
Definition hidden (post : BlogPostItem.t) : bool :=
  JS.strictEq (BlogPostItem.published post) (JS.VBool false)
  || JS.strictEq (BlogPostItem.draft post) (JS.VBool true).

(** The raw item carries a usable date of its own, so that normalizing it
    does not read the clock. *)
Definition postDated (post : BlogPostItem.t) : bool :=
  hidden post
  || JS.truthy (JS.or (BlogPostItem.date post) (BlogPostItem.publishedAt post)).

Definition profileDated (profile : ProfileItem.t) : bool :=
  JS.truthy (JS.or (JS.or (ProfileItem.publishedAt profile)
                          (ProfileItem.updatedAt profile))
                   (ProfileItem.joinedDate profile)).

Definition productDated (product : ProductItem.t) : bool :=
  JS.truthy (JS.or (ProductItem.publishedAt product) (ProductItem.updatedAt product)).

(** What a slot contributes: the array its loader returns, nothing when the
    slot is unset or the loader throws. *)
Definition succeeding {A} (s : Slot A) : list A :=
  match get s with
  | Some f => match f tt with
              | Returns xs => xs
              | Throws => []
              end
  | None => []
  end.

Definition allDated (c : ActivityFeedConfig) : bool :=
  forallb postDated (succeeding (loadBlogPosts c))
  && forallb profileDated (succeeding (loadProfiles c))
  && forallb productDated (succeeding (loadProducts c)).

(** Normalizing three arrays of raw items in source order. *)
Definition normalizeSources (posts : list BlogPostItem.t)
  (profiles : list ProfileItem.t) (products : list ProductItem.t)
  : M (list ActivityItem) :=
  a1 <- pushPosts posts [] ;;
  a2 <- pushAll profileToActivity profiles a1 ;;
  pushAll productToActivity products a2.

(** How many of the three type-specific fields hold a value. *)
Definition populated (x : ActivityItem) : nat :=
  let count (f : option string) := match f with Some _ => 1 | None => 0 end in
  count (productCategory x) + count (profileRole x) + count (license x).

(** The invariant as the specification words it: exactly one of the
    type-specific fields holds a value, and it is one of the item's type. *)
Definition ExactlyOneTypeField (x : ActivityItem) : Prop :=
  populated x = 1 /\
  match type x with
  | Post => productCategory x = None /\ profileRole x = None /\ license x = None
  | Profile => productCategory x = None /\ license x = None
  | Product => profileRole x = None
  end.

(** The excerpt rule read with "present" as "not undefined". *)
Definition excerptIfPresent (rawExcerpt rawDescription : option string) : string :=
  match rawExcerpt with
  | Some e => e
  | None => match rawDescription with
            | Some d => d
            | None => ""
            end
  end.

(** The excerpt rule with "present" as "not undefined and not empty". *)
Definition excerptIfNonEmpty (rawExcerpt rawDescription : option string) : string :=
  match rawExcerpt with
  | Some (String c e) => String c e
  | _ => match rawDescription with
         | Some d => d
         | None => ""
         end
  end.


(** ** Effects of a computation on the world *)

(** [m] neither reads the configuration or the call log nor writes the
    clock otherwise than by reading it: its result and the clock it leaves
    depend on the clock alone. *)
Definition ClockOnly {A} (m : M A) : Prop :=
  forall w w', clock w = clock w' ->
    fst (m w) = fst (m w') /\ clock (snd (m w)) = clock (snd (m w')).

(** [m] reads nothing of the world and leaves it as it is. *)
Definition Inert {A} (m : M A) : Prop :=
  forall w w', m w = (fst (m w'), w).

(** [m] leaves the configuration as it is. *)
Definition KeepsConfig {A} (m : M A) : Prop :=
  forall w, _config (snd (m w)) = _config w.

(** Two runs that agree on their result and on the clock they leave. *)
Definition Sim {A} (x y : A * World) : Prop :=
  fst x = fst y /\ clock (snd x) = clock (snd y).

(** The sorted aggregate over a given array of collected items. *)
Definition aggregateOf (getTime : string -> option Z) (items : list ActivityItem) : list ActivityItem :=
  JS.sort (compareFn getTime) items.

Definition ActivityItem_eq_dec (x y : ActivityItem) : {x = y} + {x <> y}.
Proof.
  decide equality;
    try apply string_dec;
    try (decide equality; try apply string_dec; apply (list_eq_dec string_dec)).
Defined.

(** ** The five queries as one family *)

Inductive Query :=
| Recent (limit : option Z)
| ByType (type' : ActivityType) (limit : option Z)
| ByCategory (category' : string) (limit : option Z)
| ByTag (tag : string) (limit : option Z)
| Search (query : string) (limit : option Z).

Definition runQuery (getTime : string -> option Z) (q : Query)
  : M (list ActivityItem) :=
  match q with
  | Recent limit => getRecentActivityServer getTime limit
  | ByType type' limit => getActivityByTypeServer getTime type' limit
  | ByCategory category' limit => getActivityByCategoryServer getTime category' limit
  | ByTag tag limit => getActivityByTagServer getTime tag limit
  | Search query limit => searchActivityServer getTime query limit
  end.

(** What a query answers over a given array of collected items. *)
Definition answer (getTime : string -> option Z) (q : Query)
  (items : list ActivityItem) : list ActivityItem :=
  let all := aggregateOf getTime items in
  match q with
  | Recent limit => JS.slice0 all (match limit with Some n => n | None => 10%Z end)
  | ByType type' limit =>
      limited (filter (fun item => ActivityType_eqb (type item) type') all) limit
  | ByCategory category' limit =>
      limited (filter (fun item => JS.optEq (category item) category'
                                   || JS.optEq (productCategory item) category')
                      all) limit
  | ByTag tag limit => limited (filter (hasTag tag) all) limit
  | Search query limit =>
      if blankQuery query then []
      else limited (filter (searchMatches (JS.toLowerCase query)) all) limit
  end.

(** The items the configured sources yield: [x] is the normal form of a raw
    item returned by a succeeding loader, of a post that is not hidden where
    it is a post. *)
Definition FromSources (c : ActivityFeedConfig) (x : ActivityItem) : Prop :=
  (exists post w, In post (succeeding (loadBlogPosts c)) /\ hidden post = false /\
                  fst (blogPostToActivity post w) = Some x) \/
  (exists profile w, In profile (succeeding (loadProfiles c)) /\
                     fst (profileToActivity profile w) = x) \/
  (exists product w, In product (succeeding (loadProducts c)) /\
                     fst (productToActivity product w) = x).

(** A slot whose loader throws, taken out of the configuration. *)
Definition unsetFailing {A} (s : Slot A) : Slot A :=
  match s with
  | Fn f => match f tt with
            | Returns _ => s
            | Throws => Absent
            end
  | _ => s
  end.

Definition withoutFailing (c : ActivityFeedConfig) : ActivityFeedConfig :=
  {| loadBlogPosts := unsetFailing (loadBlogPosts c);
     loadProfiles := unsetFailing (loadProfiles c);
     loadProducts := unsetFailing (loadProducts c) |}.

(** ** Sample data, after the fixtures of the test suite *)

Definition makeBlogPost (title slug : string) (date : option string)
  : BlogPostItem.t :=
  {| BlogPostItem.title := title;
     BlogPostItem.slug := slug;
     BlogPostItem.excerpt := Some "A test blog post excerpt";
     BlogPostItem.description := None;
     BlogPostItem.date := date;
     BlogPostItem.publishedAt := None;
     BlogPostItem.featuredImage := None;
     BlogPostItem.coverImage := None;
     BlogPostItem.heroImage := None;
     BlogPostItem.author := Some (AuthorString "Alice");
     BlogPostItem.category := Some "tech";
     BlogPostItem.categories := None;
     BlogPostItem.tags := Some ["svelte"; "typescript"];
     BlogPostItem.published := JS.VUndefined;
     BlogPostItem.draft := JS.VUndefined |}.

Definition makeProfile (name slug : string) (publishedAt : option string)
  : ProfileItem.t :=
  {| ProfileItem.name := Some name;
     ProfileItem.displayName := None;
     ProfileItem.slug := slug;
     ProfileItem.bio := Some "A community member bio";
     ProfileItem.publishedAt := publishedAt;
     ProfileItem.updatedAt := None;
     ProfileItem.joinedDate := None;
     ProfileItem.avatar := None;
     ProfileItem.imageUrl := None;
     ProfileItem.role := Some "moderator";
     ProfileItem.tags := Some ["community"; "events"];
     ProfileItem.interests := None |}.

Definition makeProduct (name slug : string) (publishedAt : option string)
  : ProductItem.t :=
  {| ProductItem.name := name;
     ProductItem.slug := slug;
     ProductItem.excerpt := None;
     ProductItem.description := Some "A useful widget";
     ProductItem.publishedAt := publishedAt;
     ProductItem.updatedAt := None;
     ProductItem.image := None;
     ProductItem.category := Some "tools";
     ProductItem.tags := Some ["utility"; "widget"];
     ProductItem.license := Some "MIT" |}.

(** A clock that advances by a millisecond after its first reading. *)
Definition tickingClock (n : nat) : string :=
  match n with
  | O => "2025-07-01T12:00:00.000Z"
  | S _ => "2025-07-01T12:00:00.001Z"
  end.

Definition worldOf (c : ActivityFeedConfig) : World :=
  {| _config := c; clock := tickingClock; calls := [] |}.

(** The scenario of the specification: a post of January, a profile of
    April, a product of March. *)
Definition sampleConfig : ActivityFeedConfig :=
  {| loadBlogPosts :=
       Fn (fun _ => Returns [makeBlogPost "Test Blog Post" "test-blog-post"
                                          (Some "2025-01-01")]);
     loadProfiles :=
       Fn (fun _ => Returns [makeProfile "Bob Smith" "bob-smith" (Some "2025-04-01")]);
     loadProducts :=
       Fn (fun _ => Returns [makeProduct "Cool Widget" "cool-widget"
                                         (Some "2025-03-01")]) |}.

(** The same sources, the profile carrying a string that is no date and the
    product a date of June. *)
Definition invalidDateConfig : ActivityFeedConfig :=
  {| loadBlogPosts :=
       Fn (fun _ => Returns [makeBlogPost "Test Blog Post" "test-blog-post"
                                          (Some "2025-01-01")]);
     loadProfiles :=
       Fn (fun _ => Returns [makeProfile "Bob Smith" "bob-smith" (Some "not a date")]);
     loadProducts :=
       Fn (fun _ => Returns [makeProduct "Cool Widget" "cool-widget"
                                         (Some "2025-06-01")]) |}.

(** A single post without [date] and [publishedAt]. *)
Definition undatedConfig : ActivityFeedConfig :=
  {| loadBlogPosts :=
       Fn (fun _ => Returns [makeBlogPost "Test Blog Post" "test-blog-post" None]);
     loadProfiles := Absent;
     loadProducts := Absent |}.

(** A failing post loader next to a working profile loader. *)
Definition failingPostsConfig : ActivityFeedConfig :=
  {| loadBlogPosts := Fn (fun _ => Throws);
     loadProfiles :=
       Fn (fun _ => Returns [makeProfile "Bob Smith" "bob-smith" (Some "2025-04-01")]);
     loadProducts := Absent |}.

(** A post whose excerpt is the empty string and that has a description. *)
Definition emptyExcerptPost : BlogPostItem.t :=
  {| BlogPostItem.title := "Test Blog Post";
     BlogPostItem.slug := "test-blog-post";
     BlogPostItem.excerpt := Some "";
     BlogPostItem.description := Some "A description";
     BlogPostItem.date := Some "2025-06-15T00:00:00Z";
     BlogPostItem.publishedAt := None;
     BlogPostItem.featuredImage := None;
     BlogPostItem.coverImage := None;
     BlogPostItem.heroImage := None;
     BlogPostItem.author := None;
     BlogPostItem.category := None;
     BlogPostItem.categories := None;
     BlogPostItem.tags := None;
     BlogPostItem.published := JS.VUndefined;
     BlogPostItem.draft := JS.VUndefined |}.

(** The partial configuration [{ loadBlogPosts: undefined }]. *)
Definition clearPostsConfig : ActivityFeedConfig :=
  {| loadBlogPosts := Undefined; loadProfiles := Absent; loadProducts := Absent |}.

(** Every loader throws. *)
Definition allFailingConfig : ActivityFeedConfig :=
  {| loadBlogPosts := Fn (fun _ => Throws);
     loadProfiles := Fn (fun _ => Throws);
     loadProducts := Fn (fun _ => Throws) |}.

(** A post titled in capitals, for the search. *)
Definition sveltePostConfig : ActivityFeedConfig :=
  {| loadBlogPosts :=
       Fn (fun _ => Returns [makeBlogPost "Learning Svelte Today" "learning-svelte"
                                          (Some "2025-06-15T00:00:00Z")]);
     loadProfiles := Absent;
     loadProducts := Absent |}.

(** The fixture post and its normal form. *)
Definition samplePost : BlogPostItem.t :=
  makeBlogPost "Test Blog Post" "test-blog-post" (Some "2025-06-15T00:00:00Z").

Definition samplePostItem : ActivityItem :=
  {| type := Post;
     title := "Test Blog Post";
     slug := "test-blog-post";
     excerpt := "A test blog post excerpt";
     date := "2025-06-15T00:00:00Z";
     image := None;
     author := Some "Alice";
     category := Some "tech";
     tags := Some ["svelte"; "typescript"];
     productCategory := None;
     profileRole := None;
     license := None |}.

(** The normal form of [emptyExcerptPost]. *)
Definition emptyExcerptItem : ActivityItem :=
  {| type := Post;
     title := "Test Blog Post";
     slug := "test-blog-post";
     excerpt := "A description";
     date := "2025-06-15T00:00:00Z";
     image := None;
     author := Some "Unknown";
     category := None;
     tags := Some [];
     productCategory := None;
     profileRole := None;
     license := None |}.

(** The normal form of the post of [sveltePostConfig]. *)
Definition sveltePostItem : ActivityItem :=
  {| type := Post;
     title := "Learning Svelte Today";
     slug := "learning-svelte";
     excerpt := "A test blog post excerpt";
     date := "2025-06-15T00:00:00Z";
     image := None;
     author := Some "Alice";
     category := Some "tech";
     tags := Some ["svelte"; "typescript"];
     productCategory := None;
     profileRole := None;
     license := None |}.

(** ** Vocabulary for the effects of the aggregator and the filters *)

(** The loaders the aggregator invokes, in the order of its three blocks. *)
Definition configuredLoaders (c : ActivityFeedConfig) : list LoaderName :=
  (match get (loadBlogPosts c) with Some _ => [LoadBlogPosts] | None => [] end)
  ++ (match get (loadProfiles c) with Some _ => [LoadProfiles] | None => [] end)
  ++ (match get (loadProducts c) with Some _ => [LoadProducts] | None => [] end).

(** [m] leaves the call log as it is. *)
Definition KeepsCalls {A} (m : M A) : Prop :=
  forall w, calls (snd (m w)) = calls w.

(** [m] reads the clock [k] times. *)
Definition Reads {A} (k : nat) (m : M A) : Prop :=
  forall w n, clock (snd (m w)) n = clock w (k + n).

(** The raw items whose normalization reads the clock. *)
Definition undatedCount (c : ActivityFeedConfig) : nat :=
  List.length (filter (fun p => negb (postDated p)) (succeeding (loadBlogPosts c)))
  + List.length (filter (fun p => negb (profileDated p)) (succeeding (loadProfiles c)))
  + List.length (filter (fun p => negb (productDated p)) (succeeding (loadProducts c))).

(** The raw items that yield an item of the aggregate. *)
Definition visibleCount (c : ActivityFeedConfig) : nat :=
  List.length (filter (fun p => negb (hidden p)) (succeeding (loadBlogPosts c)))
  + List.length (succeeding (loadProfiles c))
  + List.length (succeeding (loadProducts c)).

(** [{ ...a, ...b }] on partial configurations. *)
Definition mergeConfig (a b : ActivityFeedConfig) : ActivityFeedConfig :=
  {| loadBlogPosts := spread (loadBlogPosts a) (loadBlogPosts b);
     loadProfiles := spread (loadProfiles a) (loadProfiles b);
     loadProducts := spread (loadProducts a) (loadProducts b) |}.

(** The search that returns at its guard. *)
Definition isBlankSearch (q : Query) : bool :=
  match q with
  | Search query _ => blankQuery query
  | _ => false
  end.

(** The item carries the tag. *)
Definition HasTag (tag : string) (item : ActivityItem) : Prop :=
  exists l, tags item = Some l /\ In tag l.

(** The clock never shows the empty string. *)
Definition NonEmptyClock (w : World) : Prop :=
  forall n, clock w n <> "".

(** What every normalized item satisfies, by its type. *)
Definition WellFormed (x : ActivityItem) : Prop :=
  tags x <> None /\
  match type x with
  | Post => author x <> None
  | Profile => category x = Some "profile" /\ author x = Some (title x)
  | Product => category x = Some "product" /\ author x = None
  end.

(** ** The items the sources yield, without the loops of the aggregator *)

(** The normal forms of the raw items [xs] in their order, each produced
    in the world its predecessor left. *)
Fixpoint normalForms {A B} (f : A -> M B) (xs : list A) (w : World) : list B :=
  match xs with
  | [] => []
  | x :: rest => fst (f x w) :: normalForms f rest (snd (f x w))
  end.

(** The world once every item of [xs] has been normalized. *)
Fixpoint worldAfter {A B} (f : A -> M B) (xs : list A) (w : World) : World :=
  match xs with
  | [] => w
  | x :: rest => worldAfter f rest (snd (f x w))
  end.

(** The items among results that may be nothing. *)
Definition kept (l : list (option ActivityItem)) : list ActivityItem :=
  flat_map (fun o => match o with Some x => [x] | None => [] end) l.

(** What the succeeding loaders contribute: the normal forms of the posts
    that are not excluded, then those of the profiles, then those of the
    products, each source in the order of its loader's array; a source
    whose loader is unset or throws contributes nothing. *)
Definition derivedItems (c : ActivityFeedConfig) (w : World) : list ActivityItem :=
  let posts := succeeding (loadBlogPosts c) in
  let profiles := succeeding (loadProfiles c) in
  let products := succeeding (loadProducts c) in
  let w1 := worldAfter blogPostToActivity posts w in
  let w2 := worldAfter profileToActivity profiles w1 in
  kept (normalForms blogPostToActivity posts w)
  ++ normalForms profileToActivity profiles w1
  ++ normalForms productToActivity products w2.

(** The name a profile is shown under: its [name] if that is not empty,
    else its [displayName] if that is not empty, else "Community Member". *)
Definition shownName (profile : ProfileItem.t) : string :=
  match ProfileItem.name profile with
  | Some (String c n) => String c n
  | _ => match ProfileItem.displayName profile with
         | Some (String c n) => String c n
         | _ => "Community Member"
         end
  end.

(** A post and a profile of the same day. *)
Definition sameDayConfig : ActivityFeedConfig :=
  {| loadBlogPosts :=
       Fn (fun _ => Returns [makeBlogPost "Test Blog Post" "test-blog-post"
                                          (Some "2025-04-01")]);
     loadProfiles :=
       Fn (fun _ => Returns [makeProfile "Bob Smith" "bob-smith"
                                         (Some "2025-04-01T00:00:00Z")]);
     loadProducts := Absent |}.

(** A profile with no [name] and an empty [displayName], and its normal
    form. *)
Definition namelessProfile : ProfileItem.t :=
  {| ProfileItem.name := None;
     ProfileItem.displayName := Some "";
     ProfileItem.slug := "anonymous";
     ProfileItem.bio := None;
     ProfileItem.publishedAt := Some "2025-06-10T00:00:00Z";
     ProfileItem.updatedAt := None;
     ProfileItem.joinedDate := None;
     ProfileItem.avatar := None;
     ProfileItem.imageUrl := None;
     ProfileItem.role := None;
     ProfileItem.tags := None;
     ProfileItem.interests := None |}.

Definition namelessProfileItem : ActivityItem :=
  {| type := Profile;
     title := "Community Member";
     slug := "anonymous";
     excerpt := "";
     date := "2025-06-10T00:00:00Z";
     image := None;
     author := Some "Community Member";
     category := Some "profile";
     tags := Some [];
     productCategory := None;
     profileRole := None;
     license := None |}.

Definition namelessProfileConfig : ActivityFeedConfig :=
  {| loadBlogPosts := Absent;
     loadProfiles := Fn (fun _ => Returns [namelessProfile]);
     loadProducts := Absent |}.

(** * Properties *)

(** ** Dates *)

Example getTime_epoch : IsoDate.getTime "1970-01-01" = Some 0%Z.
Proof. reflexivity. Qed.

Example getTime_2025 :
  IsoDate.getTime "2025-01-01T00:00:00.000Z" = Some 1735689600000%Z.
Proof. reflexivity. Qed.

Example getTime_fixture :
  IsoDate.getTime "2025-06-15T00:00:00Z" = Some 1749945600000%Z.
Proof. reflexivity. Qed.

Example getTime_invalid : IsoDate.getTime "not a date" = None.
Proof. reflexivity. Qed.

(** ** Strings *)

Lemma prefix_app (t s : string) :
  String.prefix t s = true <-> exists post, s = (t ++ post)%string.
Proof.
  revert s. induction t as [|a t IH]; intros s.
  - destruct s; simpl; split; eauto.
  - destruct s as [|b s]; simpl.
    + split; [discriminate | intros [post H]; discriminate].
    + destruct (Ascii.ascii_dec a b) as [->|Hne].
      * rewrite IH. split; intros [post H]; exists post.
        -- now rewrite H.
        -- now inversion H.
      * split; [discriminate | intros [post H]; congruence].
Qed.

Lemma includes_eq (s t : string) :
  JS.includes s t =
  if String.prefix t s then true
  else match s with
       | EmptyString => false
       | String _ r => JS.includes r t
       end.
Proof. destruct s; reflexivity. Qed.

Lemma includes_Infix (s t : string) :
  JS.includes s t = true <-> Infix t s.
Proof.
  induction s as [|c r IH]; rewrite includes_eq;
    destruct (String.prefix t _) eqn:Hp.
  - split; [intros _ | reflexivity].
    apply prefix_app in Hp as [post Hp]. now exists "", post.
  - split; [discriminate|]. intros [pre [post H]].
    destruct pre; [|discriminate]. simpl in H.
    assert (String.prefix t "" = true) by (apply prefix_app; eauto).
    congruence.
  - split; [intros _ | reflexivity].
    apply prefix_app in Hp as [post Hp]. now exists "", post.
  - rewrite IH. split; intros [pre [post H]].
    + exists (String c pre), post. simpl. now rewrite H.
    + destruct pre as [|c' pre].
      * simpl in H.
        assert (String.prefix t (String c r) = true) by (apply prefix_app; eauto).
        congruence.
      * inversion H. now exists pre, post.
Qed.

Lemma toLowerCase_app (a b : string) :
  JS.toLowerCase (a ++ b) = (JS.toLowerCase a ++ JS.toLowerCase b)%string.
Proof. induction a as [|c a IH]; simpl; [reflexivity | now rewrite IH]. Qed.

Lemma toLowerCase_split (s a b : string) :
  JS.toLowerCase s = (a ++ b)%string ->
  exists sa sb, s = (sa ++ sb)%string /\
                JS.toLowerCase sa = a /\ JS.toLowerCase sb = b.
Proof.
  revert s. induction a as [|c a IH]; intros s H; simpl in H.
  - now exists "", s.
  - destruct s as [|d s]; [discriminate|]. simpl in H. inversion H as [[Hc Hs]].
    destruct (IH _ Hs) as (sa & sb & -> & Ha & Hb).
    exists (String d sa), sb. simpl. now rewrite Ha.
Qed.

Lemma lowerChar_white (c : ascii) :
  JS.isWhiteSpace (JS.lowerChar c) = true -> JS.lowerChar c = c.
Proof.
  destruct c as [[] [] [] [] [] [] [] []]; vm_compute; congruence.
Qed.

Lemma toLowerCase_white (s ws : string) :
  JS.toLowerCase s = ws -> allWhite ws = true -> s = ws.
Proof.
  revert ws. induction s as [|c s IH]; intros ws H Hw; simpl in H; subst ws.
  - reflexivity.
  - unfold allWhite in Hw. simpl in Hw. apply andb_true_iff in Hw as [Hc Hs].
    rewrite (lowerChar_white c Hc) in *. f_equal. now apply IH.
Qed.

Lemma trimStart_empty (s : string) :
  JS.trimStart s = "" <-> allWhite s = true.
Proof.
  unfold allWhite. induction s as [|c s IH]; simpl.
  - tauto.
  - destruct (JS.isWhiteSpace c); simpl; [exact IH|].
    split; discriminate.
Qed.

Lemma trimStart_head (s : string) c r :
  JS.trimStart s = String c r -> JS.isWhiteSpace c = false.
Proof.
  induction s as [|d s IH]; simpl; [discriminate|].
  destruct (JS.isWhiteSpace d) eqn:Hd; [exact IH|].
  intros H. inversion H. now subst.
Qed.

Lemma trimEnd_head c r :
  JS.isWhiteSpace c = false -> JS.trimEnd (String c r) <> "".
Proof.
  intros Hc. simpl. rewrite Hc. now destruct (JS.trimEnd r).
Qed.

Lemma blankQuery_allWhite (q : string) :
  blankQuery q = allWhite q.
Proof.
  unfold blankQuery, JS.trim.
  destruct (allWhite q) eqn:Hw.
  - apply trimStart_empty in Hw. rewrite Hw. simpl. apply orb_true_r.
  - assert (Hq : q <> "") by (intros ->; discriminate).
    assert (Ht : JS.trimStart q <> "") by (rewrite trimStart_empty; congruence).
    destruct (JS.trimStart q) as [|d r] eqn:E; [contradiction|].
    pose proof (trimEnd_head d r (trimStart_head _ _ _ E)) as Hne.
    apply orb_false_iff; split; apply String.eqb_neq; assumption.
Qed.

Lemma NonBlank_allWhite (q : string) :
  NonBlank q <-> allWhite q = false.
Proof.
  unfold NonBlank, allWhite. split.
  - intros (c & Hin & Hc).
    destruct (forallb _ _) eqn:Hf; [|reflexivity].
    rewrite forallb_forall in Hf. rewrite (Hf _ Hin) in Hc. discriminate.
  - intros Hf. induction (list_ascii_of_string q) as [|c l IH]; [discriminate|].
    simpl in Hf. destruct (JS.isWhiteSpace c) eqn:Hc.
    + destruct (IH Hf) as (d & Hin & Hd). exists d. split; [now right | exact Hd].
    + exists c. split; [now left | exact Hc].
Qed.

(** ** Arrays: slice and sort *)

Lemma firstn_min {A} (n : nat) (l : list A) :
  firstn (Nat.min n (List.length l)) l = firstn n l.
Proof.
  destruct (Nat.le_ge_cases n (List.length l)) as [H|H].
  - now rewrite Nat.min_l.
  - rewrite Nat.min_r by assumption.
    now rewrite firstn_all, firstn_all2.
Qed.

Lemma slice0_nat {A} (l : list A) (n : nat) :
  JS.slice0 l (Z.of_nat n) = firstn n l.
Proof.
  unfold JS.slice0.
  destruct (Z.ltb_spec (Z.of_nat n) 0) as [H|_]; [lia|].
  rewrite <- Nat2Z.inj_min, Nat2Z.id. apply firstn_min.
Qed.

Lemma firstn_incl {A} (n : nat) (l : list A) x :
  In x (firstn n l) -> In x l.
Proof.
  intros H. rewrite <- (firstn_skipn n l). apply in_or_app. now left.
Qed.

Lemma slice0_incl {A} (l : list A) (e : Z) x :
  In x (JS.slice0 l e) -> In x l.
Proof. apply firstn_incl. Qed.

Lemma slice0_nil {A} (e : Z) : JS.slice0 (@nil A) e = [].
Proof. unfold JS.slice0. apply firstn_nil. Qed.


Lemma StronglySorted_filter {A} (R : A -> A -> Prop) (f : A -> bool) (l : list A) :
  StronglySorted R l -> StronglySorted R (filter f l).
Proof.
  induction 1 as [|a l Hs IH Hf]; simpl; [constructor|].
  destruct (f a); [|exact IH].
  constructor; [exact IH|].
  rewrite Forall_forall in *. intros x Hx. apply filter_In in Hx as [Hx _]. auto.
Qed.



Section SortFacts.

Context {A : Type}.
Variable comparefn : A -> A -> option Z.

Lemma insert_perm (x : A) (l : list A) :
  Permutation (JS.insert comparefn x l) (x :: l).
Proof.
  induction l as [|y r IH]; simpl; [reflexivity|].
  destruct (JS.sortCompare comparefn x y <? 0)%Z; [|reflexivity].
  rewrite IH. apply perm_swap.
Qed.

Lemma fold_insert_perm (l acc : list A) :
  Permutation (fold_left (fun acc x => JS.insert comparefn x acc) l acc) (l ++ acc).
Proof.
  revert acc. induction l as [|x l IH]; intros acc; simpl; [reflexivity|].
  rewrite IH, insert_perm. symmetry. apply Permutation_middle.
Qed.

(** Sorting rearranges the array and nothing else, whatever the comparator
    answers. *)
Lemma sort_perm (l : list A) : Permutation (JS.sort comparefn l) l.
Proof.
  unfold JS.sort. rewrite <- Permutation_rev, fold_insert_perm.
  now rewrite app_nil_r.
Qed.

(** Where the comparator is the difference of a numeric key, on the
    elements that satisfy [ok]. *)
Variable key : A -> Z.
Variable ok : A -> Prop.
Hypothesis comparefn_key :
  forall x y, ok x -> ok y -> comparefn x y = Some (key y - key x)%Z.




End SortFacts.

(** ** Date order *)

Section DateOrder.

Variable getTime : string -> option Z.



Lemma newerOrSame_trans (a b c : ActivityItem) :
  newerOrSame getTime a b -> newerOrSame getTime b c -> newerOrSame getTime a c.
Proof.
  unfold newerOrSame.
  destruct (getTime (date a)), (getTime (date b)), (getTime (date c));
    try contradiction; lia.
Qed.

Lemma DateDescending_filter (f : ActivityItem -> bool) (l : list ActivityItem) :
  DateDescending getTime l -> DateDescending getTime (filter f l).
Proof.
  intros H. apply StronglySorted_Sorted, StronglySorted_filter.
  apply Sorted_StronglySorted; [|exact H].
  intros a b c. apply newerOrSame_trans.
Qed.

Lemma compareFn_timeOf (x y : ActivityItem) :
  validDate getTime x = true -> validDate getTime y = true ->
  compareFn getTime x y = Some (timeOf getTime y - timeOf getTime x)%Z.
Proof.
  unfold validDate, compareFn, timeOf.
  destruct (getTime (date x)), (getTime (date y)); congruence.
Qed.



End DateOrder.

(** ** The world monad *)

Lemma bind_run {A B} (m : M A) (k : A -> M B) (w : World) :
  bind m k w = k (fst (m w)) (snd (m w)).
Proof. unfold bind. now destruct (m w). Qed.

Lemma ClockOnly_ret {A} (a : A) : ClockOnly (ret a).
Proof. intros w w' H. now split. Qed.

Lemma ClockOnly_bind {A B} (m : M A) (k : A -> M B) :
  ClockOnly m -> (forall a, ClockOnly (k a)) -> ClockOnly (bind m k).
Proof.
  intros Hm Hk w w' H. rewrite !bind_run.
  destruct (Hm w w' H) as [Hf Hc]. rewrite Hf. now apply Hk.
Qed.

Lemma ClockOnly_now : ClockOnly nowISOString.
Proof. intros w w' H. unfold nowISOString. simpl. now rewrite H. Qed.

Lemma ClockOnly_invoke {A} name (f : Loader A) : ClockOnly (invoke name f).
Proof. intros w w' H. now split. Qed.

Lemma Inert_ret {A} (a : A) : Inert (ret a).
Proof. intros w w'. reflexivity. Qed.

Lemma Inert_bind {A B} (m : M A) (k : A -> M B) :
  Inert m -> (forall a, Inert (k a)) -> Inert (bind m k).
Proof.
  intros Hm Hk w w'. rewrite !bind_run.
  rewrite (Hm w w'), (Hm w' w'). simpl. apply Hk.
Qed.

Lemma KeepsConfig_ret {A} (a : A) : KeepsConfig (ret a).
Proof. intros w. reflexivity. Qed.

Lemma KeepsConfig_bind {A B} (m : M A) (k : A -> M B) :
  KeepsConfig m -> (forall a, KeepsConfig (k a)) -> KeepsConfig (bind m k).
Proof. intros Hm Hk w. rewrite bind_run, Hk. apply Hm. Qed.

Lemma KeepsConfig_now : KeepsConfig nowISOString.
Proof. intros w. reflexivity. Qed.

Lemma KeepsConfig_invoke {A} name (f : Loader A) : KeepsConfig (invoke name f).
Proof. intros w. reflexivity. Qed.

Create HintDb world.
#[local] Hint Resolve ClockOnly_ret ClockOnly_now ClockOnly_invoke
  KeepsConfig_ret KeepsConfig_now KeepsConfig_invoke Inert_ret : world.

(** *** The normalizers in the monad *)

Lemma ClockOnly_orNow a : ClockOnly (orNow a).
Proof. destruct a as [s|]; simpl; [destruct (String.eqb s "")|]; auto with world. Qed.

Lemma KeepsConfig_orNow a : KeepsConfig (orNow a).
Proof. destruct a as [s|]; simpl; [destruct (String.eqb s "")|]; auto with world. Qed.

Lemma Inert_orNow a : JS.truthy a = true -> Inert (orNow a).
Proof.
  destruct a as [s|]; simpl; [|discriminate].
  destruct (String.eqb s ""); [discriminate|]. auto with world.
Qed.

Ltac monadic lemma_bind lemma_orNow :=
  repeat first
    [ apply lemma_bind; [|intros ?]
    | apply lemma_orNow
    | solve [auto with world] ].

Lemma ClockOnly_post post : ClockOnly (blogPostToActivity post).
Proof.
  unfold blogPostToActivity. destruct (_ || _); [auto with world|].
  monadic (@ClockOnly_bind) ClockOnly_orNow.
Qed.

Lemma ClockOnly_profile profile : ClockOnly (profileToActivity profile).
Proof. unfold profileToActivity. monadic (@ClockOnly_bind) ClockOnly_orNow. Qed.

Lemma ClockOnly_product product : ClockOnly (productToActivity product).
Proof. unfold productToActivity. monadic (@ClockOnly_bind) ClockOnly_orNow. Qed.

Lemma KeepsConfig_post post : KeepsConfig (blogPostToActivity post).
Proof.
  unfold blogPostToActivity. destruct (_ || _); [auto with world|].
  monadic (@KeepsConfig_bind) KeepsConfig_orNow.
Qed.

Lemma KeepsConfig_profile profile : KeepsConfig (profileToActivity profile).
Proof. unfold profileToActivity. monadic (@KeepsConfig_bind) KeepsConfig_orNow. Qed.

Lemma KeepsConfig_product product : KeepsConfig (productToActivity product).
Proof. unfold productToActivity. monadic (@KeepsConfig_bind) KeepsConfig_orNow. Qed.

Lemma Inert_post post : postDated post = true -> Inert (blogPostToActivity post).
Proof.
  intros H. unfold blogPostToActivity. fold (hidden post).
  unfold postDated in H. destruct (hidden post); [auto with world|].
  apply Inert_bind; [now apply Inert_orNow | auto with world].
Qed.

Lemma Inert_profile profile :
  profileDated profile = true -> Inert (profileToActivity profile).
Proof.
  unfold profileDated, profileToActivity. intros H.
  apply Inert_bind; [now apply Inert_orNow | auto with world].
Qed.

Lemma Inert_product product :
  productDated product = true -> Inert (productToActivity product).
Proof.
  unfold productDated, productToActivity. intros H.
  apply Inert_bind; [now apply Inert_orNow | auto with world].
Qed.

(** *** The loops *)

Section Loops.

Context {A : Type} (f : A -> M ActivityItem).

Lemma ClockOnly_pushAll xs acts :
  (forall x, ClockOnly (f x)) -> ClockOnly (pushAll f xs acts).
Proof.
  intros Hf. revert acts. induction xs as [|x xs IH]; intros acts; simpl.
  - auto with world.
  - apply ClockOnly_bind; [apply Hf | intros; apply IH].
Qed.

Lemma KeepsConfig_pushAll xs acts :
  (forall x, KeepsConfig (f x)) -> KeepsConfig (pushAll f xs acts).
Proof.
  intros Hf. revert acts. induction xs as [|x xs IH]; intros acts; simpl.
  - auto with world.
  - apply KeepsConfig_bind; [apply Hf | intros; apply IH].
Qed.

Lemma Inert_pushAll (dated : A -> bool) xs acts :
  (forall x, dated x = true -> Inert (f x)) ->
  forallb dated xs = true -> Inert (pushAll f xs acts).
Proof.
  intros Hf. revert acts. induction xs as [|x xs IH]; intros acts Hd; simpl.
  - auto with world.
  - simpl in Hd. apply andb_true_iff in Hd as [Hx Hxs].
    apply Inert_bind; [now apply Hf | intros; now apply IH].
Qed.

End Loops.

Lemma ClockOnly_pushPosts posts acts : ClockOnly (pushPosts posts acts).
Proof.
  revert acts. induction posts as [|p posts IH]; intros acts; simpl.
  - auto with world.
  - apply ClockOnly_bind; [apply ClockOnly_post | intros [it|]; apply IH].
Qed.

Lemma KeepsConfig_pushPosts posts acts : KeepsConfig (pushPosts posts acts).
Proof.
  revert acts. induction posts as [|p posts IH]; intros acts; simpl.
  - auto with world.
  - apply KeepsConfig_bind; [apply KeepsConfig_post | intros [it|]; apply IH].
Qed.

Lemma Inert_pushPosts posts acts :
  forallb postDated posts = true -> Inert (pushPosts posts acts).
Proof.
  revert acts. induction posts as [|p posts IH]; intros acts Hd; simpl.
  - auto with world.
  - simpl in Hd. apply andb_true_iff in Hd as [Hp Hps].
    apply Inert_bind; [now apply Inert_post | intros [it|]; now apply IH].
Qed.

Lemma ClockOnly_normalizeSources posts profiles products :
  ClockOnly (normalizeSources posts profiles products).
Proof.
  unfold normalizeSources.
  apply ClockOnly_bind; [apply ClockOnly_pushPosts | intros a1].
  apply ClockOnly_bind; intros;
    apply ClockOnly_pushAll; auto using ClockOnly_profile, ClockOnly_product.
Qed.

Lemma Inert_normalizeSources posts profiles products :
  forallb postDated posts = true ->
  forallb profileDated profiles = true ->
  forallb productDated products = true ->
  Inert (normalizeSources posts profiles products).
Proof.
  intros H1 H2 H3. unfold normalizeSources.
  apply Inert_bind; [now apply Inert_pushPosts | intros a1].
  apply Inert_bind; intros.
  - apply (Inert_pushAll _ profileDated); auto using Inert_profile.
  - apply (Inert_pushAll _ productDated); auto using Inert_product.
Qed.

(** *** The aggregator *)

Lemma Sim_bind {A B} (m1 m2 : M A) (k1 k2 : A -> M B) (w1 w2 : World) :
  Sim (m1 w1) (m2 w2) ->
  (forall a w w', clock w = clock w' -> Sim (k1 a w) (k2 a w')) ->
  Sim (bind m1 k1 w1) (bind m2 k2 w2).
Proof.
  intros [Hf Hc] Hk. rewrite !bind_run, Hf. now apply Hk.
Qed.

Lemma spread_Absent {A} (s : Slot A) : spread Absent s = s.
Proof. now destruct s. Qed.

Lemma getConfig_run (w : World) : getConfig w = (_config w, w).
Proof.
  unfold getConfig. rewrite !spread_Absent. now destruct (_config w).
Qed.

(** A loader that is unset or throws leaves the array as a loader that
    returns the empty array does. *)
Lemma tryLoad_succeeding {A} name (slot : Slot A)
  (body : list A -> list ActivityItem -> M (list ActivityItem)) acts w w' :
  (forall xs acts, ClockOnly (body xs acts)) ->
  (forall acts w, body [] acts w = (acts, w)) ->
  clock w = clock w' ->
  Sim (tryLoad name slot body acts w) (body (succeeding slot) acts w').
Proof.
  intros Hbody Hnil Hc. unfold tryLoad, succeeding.
  destruct (get slot) as [f|].
  - rewrite bind_run. simpl. destruct (f tt) as [xs|].
    + apply Hbody. exact Hc.
    + rewrite Hnil. split; [reflexivity | exact Hc].
  - rewrite Hnil. split; [reflexivity | exact Hc].
Qed.

Lemma collectActivity_succeeding (w : World) :
  Sim (collectActivity w)
      (normalizeSources (succeeding (loadBlogPosts (_config w)))
                        (succeeding (loadProfiles (_config w)))
                        (succeeding (loadProducts (_config w))) w).
Proof.
  unfold collectActivity, normalizeSources.
  rewrite bind_run, getConfig_run. simpl fst. simpl snd.
  apply Sim_bind.
  { apply tryLoad_succeeding; auto using ClockOnly_pushPosts. }
  intros a1 w1 w1' H1. apply Sim_bind.
  { apply tryLoad_succeeding; auto.
    intros; apply ClockOnly_pushAll; apply ClockOnly_profile. }
  intros a2 w2 w2' H2.
  apply tryLoad_succeeding; auto.
  intros; apply ClockOnly_pushAll; apply ClockOnly_product.
Qed.

Lemma KeepsConfig_tryLoad {A} name (slot : Slot A)
  (body : list A -> list ActivityItem -> M (list ActivityItem)) acts :
  (forall xs acts, KeepsConfig (body xs acts)) ->
  KeepsConfig (tryLoad name slot body acts).
Proof.
  intros Hbody. unfold tryLoad. destruct (get slot) as [f|]; [|auto with world].
  apply KeepsConfig_bind; [auto with world|].
  intros [xs|]; auto with world.
Qed.

Lemma KeepsConfig_collectActivity : KeepsConfig collectActivity.
Proof.
  unfold collectActivity.
  apply KeepsConfig_bind; [intros w; now rewrite getConfig_run | intros c].
  apply KeepsConfig_bind; [apply KeepsConfig_tryLoad, KeepsConfig_pushPosts | intros a1].
  apply KeepsConfig_bind; [|intros a2]; apply KeepsConfig_tryLoad; intros;
    apply KeepsConfig_pushAll; auto using KeepsConfig_profile, KeepsConfig_product.
Qed.

(** *** The queries as functions of the collected items *)

Section Queries.

Variable getTime : string -> option Z.

Lemma loadAllActivity_run w :
  loadAllActivity getTime w =
  (aggregateOf getTime (fst (collectActivity w)), snd (collectActivity w)).
Proof. unfold loadAllActivity. now rewrite bind_run. Qed.

Lemma getRecentActivityServer_run limit w :
  getRecentActivityServer getTime limit w =
  (JS.slice0 (aggregateOf getTime (fst (collectActivity w)))
             (match limit with Some n => n | None => 10%Z end),
   snd (collectActivity w)).
Proof.
  unfold getRecentActivityServer. now rewrite bind_run, loadAllActivity_run.
Qed.

Lemma getActivityByTypeServer_run type' limit w :
  getActivityByTypeServer getTime type' limit w =
  (limited (filter (fun item => ActivityType_eqb (type item) type')
                   (aggregateOf getTime (fst (collectActivity w)))) limit,
   snd (collectActivity w)).
Proof.
  unfold getActivityByTypeServer. now rewrite bind_run, loadAllActivity_run.
Qed.

Lemma getActivityByCategoryServer_run category' limit w :
  getActivityByCategoryServer getTime category' limit w =
  (limited (filter (fun item => JS.optEq (category item) category'
                                || JS.optEq (productCategory item) category')
                   (aggregateOf getTime (fst (collectActivity w)))) limit,
   snd (collectActivity w)).
Proof.
  unfold getActivityByCategoryServer. now rewrite bind_run, loadAllActivity_run.
Qed.

Lemma getActivityByTagServer_run tag limit w :
  getActivityByTagServer getTime tag limit w =
  (limited (filter (hasTag tag) (aggregateOf getTime (fst (collectActivity w)))) limit,
   snd (collectActivity w)).
Proof.
  unfold getActivityByTagServer. now rewrite bind_run, loadAllActivity_run.
Qed.

Lemma searchActivityServer_run query limit w :
  allWhite query = false ->
  searchActivityServer getTime query limit w =
  (limited (filter (searchMatches (JS.toLowerCase query))
                   (aggregateOf getTime (fst (collectActivity w)))) limit,
   snd (collectActivity w)).
Proof.
  intros H. unfold searchActivityServer. rewrite blankQuery_allWhite, H.
  now rewrite bind_run, loadAllActivity_run.
Qed.

Lemma limited_incl filtered limit x :
  In x (limited filtered limit) -> In x filtered.
Proof. destruct limit; simpl; [apply slice0_incl | trivial]. Qed.

Lemma limited_nil limit : limited [] limit = [].
Proof. destruct limit; simpl; [apply slice0_nil | reflexivity]. Qed.

Lemma aggregateOf_nil : aggregateOf getTime [] = [].
Proof. reflexivity. Qed.

End Queries.

(** ** Post normalization: which posts are excluded *)

Lemma strictEq_false (v : JS.value) :
  JS.strictEq v (JS.VBool false) = true <-> v = JS.VBool false.
Proof.
  destruct v as [| |[]| | |]; simpl; split; congruence.
Qed.

Lemma strictEq_true (v : JS.value) :
  JS.strictEq v (JS.VBool true) = true <-> v = JS.VBool true.
Proof.
  destruct v as [| |[]| | |]; simpl; split; congruence.
Qed.

Lemma hidden_iff (post : BlogPostItem.t) :
  hidden post = true <->
  BlogPostItem.published post = JS.VBool false \/
  BlogPostItem.draft post = JS.VBool true.
Proof.
  unfold hidden. now rewrite orb_true_iff, strictEq_false, strictEq_true.
Qed.

Lemma blogPostToActivity_None (post : BlogPostItem.t) (w : World) :
  fst (blogPostToActivity post w) = None <-> hidden post = true.
Proof.
  unfold blogPostToActivity. fold (hidden post).
  destruct (hidden post); [now split|].
  rewrite bind_run. simpl. split; discriminate.
Qed.

Lemma pushPosts_length (posts : list BlogPostItem.t) acts w :
  List.length (fst (pushPosts posts acts w)) =
  List.length acts + List.length (filter (fun p => negb (hidden p)) posts).
Proof.
  revert acts w. induction posts as [|p posts IH]; intros acts w; simpl.
  - lia.
  - rewrite bind_run.
    pose proof (blogPostToActivity_None p w) as Hn.
    destruct (fst (blogPostToActivity p w)) as [it|].
    + destruct (hidden p); [now destruct Hn as [_ Hn]; specialize (Hn eq_refl)|].
      simpl. rewrite IH, length_app. simpl. lia.
    + destruct Hn as [Hn _]. rewrite (Hn eq_refl). simpl. apply IH.
Qed.

(** C2.  Post normalization yields nothing exactly when [published] is the
    boolean [false] or [draft] is the boolean [true]; a post whose two flags
    hold any other value, falsy ones included, is normalized to an item; and
    the aggregator's loop keeps one item per post that is not excluded. *)
Theorem post_excluded_iff_explicit_flag (post : BlogPostItem.t) (w : World) :
  (fst (blogPostToActivity post w) = None <->
   BlogPostItem.published post = JS.VBool false \/
   BlogPostItem.draft post = JS.VBool true) /\
  (JS.toBoolean (BlogPostItem.published post) = false ->
   BlogPostItem.published post <> JS.VBool false ->
   JS.toBoolean (BlogPostItem.draft post) = false ->
   exists item, fst (blogPostToActivity post w) = Some item) /\
  (forall posts acts,
     List.length (fst (pushPosts posts acts w)) =
     List.length acts + List.length (filter (fun p => negb (hidden p)) posts)).
Proof.
  split; [|split].
  - now rewrite blogPostToActivity_None, hidden_iff.
  - intros Hp Hne Hd.
    destruct (fst (blogPostToActivity post w)) as [item|] eqn:E; [now exists item|].
    apply blogPostToActivity_None, hidden_iff in E as [E|E]; [contradiction|].
    rewrite E in Hd. discriminate.
  - intros. apply pushPosts_length.
Qed.

(** A post with [published: null] and [draft: 0] is visible. *)
Lemma post_excluded_iff_explicit_flag_witness :
  exists item,
    fst (blogPostToActivity
           {| BlogPostItem.title := "Test Blog Post";
              BlogPostItem.slug := "test-blog-post";
              BlogPostItem.excerpt := None;
              BlogPostItem.description := None;
              BlogPostItem.date := Some "2025-06-15T00:00:00Z";
              BlogPostItem.publishedAt := None;
              BlogPostItem.featuredImage := None;
              BlogPostItem.coverImage := None;
              BlogPostItem.heroImage := None;
              BlogPostItem.author := None;
              BlogPostItem.category := None;
              BlogPostItem.categories := None;
              BlogPostItem.tags := None;
              BlogPostItem.published := JS.VNull;
              BlogPostItem.draft := JS.VNumber 0 |}
           (worldOf emptyConfig)) = Some item.
Proof.
  apply post_excluded_iff_explicit_flag; simpl; [reflexivity | discriminate | reflexivity].
Defined.

(** ** The type-specific fields *)

(** C6, as stated: a post item holds none of the three type-specific
    fields, so "exactly one" fails on it. *)
Lemma post_item_has_no_type_specific_field :
  fst (blogPostToActivity samplePost (worldOf emptyConfig)) = Some samplePostItem /\
  populated samplePostItem = 0 /\
  ~ ExactlyOneTypeField samplePostItem.
Proof.
  split; [reflexivity|]. split; [reflexivity|].
  intros [H _]. discriminate H.
Qed.

(** A product item may hold two of them. *)
Example product_item_has_two_type_specific_fields :
  populated (fst (productToActivity
                    (makeProduct "Cool Widget" "cool-widget" (Some "2025-06-12T00:00:00Z"))
                    (worldOf emptyConfig))) = 2.
Proof. reflexivity. Qed.

(** C6, amended.  The type-specific fields follow the type: a post item
    holds none of them; a profile item holds no [productCategory] and no
    [license], and its [profileRole] is the raw [role]; a product item holds
    no [profileRole], and its [productCategory] and [license] are the raw
    [category] and [license]. *)
Theorem type_specific_fields_follow_type (w : World) :
  (forall post item,
     fst (blogPostToActivity post w) = Some item ->
     type item = Post /\ productCategory item = None /\
     profileRole item = None /\ license item = None) /\
  (forall profile,
     let item := fst (profileToActivity profile w) in
     type item = Profile /\ productCategory item = None /\ license item = None /\
     profileRole item = ProfileItem.role profile) /\
  (forall product,
     let item := fst (productToActivity product w) in
     type item = Product /\ profileRole item = None /\
     productCategory item = ProductItem.category product /\
     license item = ProductItem.license product).
Proof.
  split; [|split].
  - intros post item. unfold blogPostToActivity.
    destruct (_ || _); [discriminate|].
    rewrite bind_run. simpl. intros H. inversion H. now subst.
  - intros profile. unfold profileToActivity. rewrite bind_run. simpl. tauto.
  - intros product. unfold productToActivity. rewrite bind_run. simpl. tauto.
Qed.

Lemma type_specific_fields_follow_type_witness :
  type samplePostItem = Post /\ productCategory samplePostItem = None /\
  profileRole samplePostItem = None /\ license samplePostItem = None.
Proof.
  apply (proj1 (type_specific_fields_follow_type (worldOf emptyConfig))
               samplePost samplePostItem).
  reflexivity.
Defined.

(** ** The excerpt *)

(** C7, as stated: an excerpt that is present but empty does not win over
    the description. *)
Lemma empty_excerpt_falls_back_to_description :
  BlogPostItem.excerpt emptyExcerptPost = Some "" /\
  option_map excerpt (fst (blogPostToActivity emptyExcerptPost (worldOf emptyConfig)))
  = Some "A description" /\
  option_map excerpt (fst (blogPostToActivity emptyExcerptPost (worldOf emptyConfig)))
  <> Some (excerptIfPresent (BlogPostItem.excerpt emptyExcerptPost)
                            (BlogPostItem.description emptyExcerptPost)).
Proof.
  split; [reflexivity|]. split; [reflexivity|]. vm_compute. discriminate.
Qed.

Lemma orString_or (e d : option string) :
  JS.orString (JS.or e d) "" = excerptIfNonEmpty e d.
Proof.
  destruct e as [[|c e]|]; simpl; try reflexivity;
    destruct d as [[|c' d]|]; reflexivity.
Qed.

(** C7, amended.  For a post that is not excluded and for every product,
    the normalized excerpt is the raw [excerpt] when it is present and not
    empty, otherwise the raw [description] when it is present, otherwise
    the empty string. *)
Theorem excerpt_is_first_non_empty (w : World) :
  (forall post item,
     fst (blogPostToActivity post w) = Some item ->
     excerpt item = excerptIfNonEmpty (BlogPostItem.excerpt post)
                                      (BlogPostItem.description post)) /\
  (forall product,
     excerpt (fst (productToActivity product w)) =
     excerptIfNonEmpty (ProductItem.excerpt product)
                       (ProductItem.description product)).
Proof.
  split.
  - intros post item. unfold blogPostToActivity.
    destruct (_ || _); [discriminate|].
    rewrite bind_run. simpl. intros H. inversion H. simpl. apply orString_or.
  - intros product. unfold productToActivity. rewrite bind_run. simpl.
    apply orString_or.
Qed.

Lemma excerpt_is_first_non_empty_witness :
  excerpt emptyExcerptItem =
  excerptIfNonEmpty (BlogPostItem.excerpt emptyExcerptPost)
                    (BlogPostItem.description emptyExcerptPost).
Proof.
  apply (proj1 (excerpt_is_first_non_empty (worldOf emptyConfig))
               emptyExcerptPost emptyExcerptItem).
  reflexivity.
Defined.

(** ** The configuration store *)

Lemma configure_run (partial : ActivityFeedConfig) (w : World) :
  _config (snd (configure partial w)) =
  {| loadBlogPosts := spread (loadBlogPosts (_config w)) (loadBlogPosts partial);
     loadProfiles := spread (loadProfiles (_config w)) (loadProfiles partial);
     loadProducts := spread (loadProducts (_config w)) (loadProducts partial) |}.
Proof. reflexivity. Qed.

Lemma spread_Undefined {A} (old new : Slot A) :
  new = Undefined -> get (spread old new) = None.
Proof. now intros ->. Qed.

Lemma spread_omitted {A} (old new : Slot A) :
  new = Absent -> spread old new = old.
Proof. now intros ->. Qed.

(** C9.  [configure] with a loader field that is present and [undefined]
    overwrites the slot: the next [getConfig] reads that loader as
    [undefined] and the source contributes nothing, whatever was configured
    before; an omitted field leaves the slot as it was. *)
Theorem configure_explicit_undefined_clears_slot
  (partial : ActivityFeedConfig) (w : World) :
  let after := fst (getConfig (snd (configure partial w))) in
  (loadBlogPosts partial = Undefined ->
   get (loadBlogPosts after) = None /\ succeeding (loadBlogPosts after) = []) /\
  (loadProfiles partial = Undefined ->
   get (loadProfiles after) = None /\ succeeding (loadProfiles after) = []) /\
  (loadProducts partial = Undefined ->
   get (loadProducts after) = None /\ succeeding (loadProducts after) = []) /\
  (loadBlogPosts partial = Absent ->
   loadBlogPosts after = loadBlogPosts (_config w)) /\
  (loadProfiles partial = Absent ->
   loadProfiles after = loadProfiles (_config w)) /\
  (loadProducts partial = Absent ->
   loadProducts after = loadProducts (_config w)).
Proof.
  intros after. unfold after. rewrite getConfig_run, configure_run. simpl.
  unfold succeeding.
  split; [|split; [|split; [|split; [|split]]]];
    intros H; rewrite H; simpl; auto.
Qed.

(** With posts, profiles and products configured, [{ loadBlogPosts:
    undefined }] unsets the post loader, and [{}] does not. *)
Lemma configure_explicit_undefined_clears_slot_witness :
  (get (loadBlogPosts (fst (getConfig (snd (configure clearPostsConfig
                                                       (worldOf sampleConfig))))))
   = None /\
   succeeding (loadBlogPosts (fst (getConfig (snd (configure clearPostsConfig
                                                       (worldOf sampleConfig))))))
   = []) /\
  loadBlogPosts (fst (getConfig (snd (configure emptyConfig (worldOf sampleConfig)))))
  = loadBlogPosts sampleConfig.
Proof.
  split.
  - apply (proj1 (configure_explicit_undefined_clears_slot
                    clearPostsConfig (worldOf sampleConfig))).
    reflexivity.
  - apply (proj1 (proj2 (proj2 (proj2 (configure_explicit_undefined_clears_slot
                                         emptyConfig (worldOf sampleConfig)))))).
    reflexivity.
Defined.

(** ** Search *)

Lemma searchMatches_orb (searchTerm : string) (item : ActivityItem) :
  searchMatches searchTerm item =
  JS.includes (JS.toLowerCase (title item)) searchTerm
  || JS.includes (JS.toLowerCase (excerpt item)) searchTerm
  || match author item with
     | Some a => JS.includes (JS.toLowerCase a) searchTerm
     | None => false
     end
  || match tags item with
     | Some l => existsb (fun tag => JS.includes (JS.toLowerCase tag) searchTerm) l
     | None => false
     end.
Proof.
  unfold searchMatches.
  destruct (JS.includes (JS.toLowerCase (title item)) searchTerm); [reflexivity|].
  destruct (JS.includes (JS.toLowerCase (excerpt item)) searchTerm); [reflexivity|].
  destruct (author item) as [a|]; simpl.
  - destruct (JS.includes (JS.toLowerCase a) searchTerm); [reflexivity|].
    now destruct (tags item) as [l|]; [destruct (existsb _ l)|].
  - now destruct (tags item) as [l|]; [destruct (existsb _ l)|].
Qed.

(** The filter of the code decides the criterion of the specification. *)
Lemma searchMatches_spec (query : string) (item : ActivityItem) :
  searchMatches (JS.toLowerCase query) item = true <-> MatchesQuery query item.
Proof.
  rewrite searchMatches_orb, !orb_true_iff, !includes_Infix.
  unfold MatchesQuery, SearchedText. split.
  - intros [[[H|H]|H]|H].
    + exists (title item). auto.
    + exists (excerpt item). auto.
    + destruct (author item) as [a|] eqn:Ea; [|discriminate].
      apply includes_Infix in H. exists a. auto.
    + destruct (tags item) as [l|] eqn:El; [|discriminate].
      apply existsb_exists in H as (tag & Hin & H). apply includes_Infix in H.
      exists tag. split; [|exact H]. right; right; right. now exists l.
  - intros (text & [->|[->|[Ha|(l & Hl & Hin)]]] & H).
    + auto.
    + auto.
    + left; right. rewrite Ha. now apply includes_Infix.
    + right. rewrite Hl. apply existsb_exists. exists text.
      split; [exact Hin | now apply includes_Infix].
Qed.

Lemma count_occ_filter {A} (dec : forall x y : A, {x = y} + {x <> y})
  (f : A -> bool) (l : list A) (x : A) :
  count_occ dec (filter f l) x = if f x then count_occ dec l x else 0.
Proof.
  induction l as [|a l IH]; simpl; [now destruct (f x)|].
  destruct (dec a x) as [->|Hne].
  - destruct (f x) eqn:Hx; simpl; [|exact IH].
    destruct (dec x x); [now rewrite IH | contradiction].
  - destruct (f a) eqn:Ha; simpl; [|exact IH].
    destruct (dec a x); [contradiction | exact IH].
Qed.

(** The guard [!query || query.trim() === ''] returns before anything is
    loaded. *)
Lemma searchActivityServer_guard
  (getTime : string -> option Z) (query : string) (limit : option Z) (w : World) :
  blankQuery query = true ->
  searchActivityServer getTime query limit w = ([], w).
Proof. intros H. unfold searchActivityServer. now rewrite H. Qed.

(** C5.  A query that is empty or all white space is answered with the
    empty sequence and leaves the world as it was: no loader is invoked and
    the clock is not read, whatever is configured. *)
Theorem search_blank_query_returns_nothing
  (getTime : string -> option Z) (query : string) (limit : option Z) (w : World) :
  query = "" \/ allWhite query = true ->
  searchActivityServer getTime query limit w = ([], w) /\
  calls (snd (searchActivityServer getTime query limit w)) = calls w /\
  clock (snd (searchActivityServer getTime query limit w)) = clock w.
Proof.
  intros H.
  assert (Hb : blankQuery query = true).
  { rewrite blankQuery_allWhite. destruct H as [->|H]; [reflexivity | exact H]. }
  rewrite (searchActivityServer_guard getTime query limit w Hb). now repeat split.
Qed.

(** The queries [""] and ["   "] over a configuration with matching
    content. *)
Lemma search_blank_query_returns_nothing_witness :
  searchActivityServer IsoDate.getTime "" None (worldOf sampleConfig)
  = ([], worldOf sampleConfig) /\
  searchActivityServer IsoDate.getTime "   " None (worldOf sampleConfig)
  = ([], worldOf sampleConfig).
Proof.
  split.
  - apply (search_blank_query_returns_nothing
             IsoDate.getTime "" None (worldOf sampleConfig)).
    left. reflexivity.
  - apply (search_blank_query_returns_nothing
             IsoDate.getTime "   " None (worldOf sampleConfig)).
    right. reflexivity.
Defined.

(** C4.  For a query with a character that is not white space and no
    limit, the result holds exactly the items of the aggregate of which the
    title, the excerpt, the author if any, or a tag contains the lowercased
    query once lowercased; a matching item occurs as often as in the
    aggregate, on however many fields it matches; and the result is the
    aggregate filtered, in the aggregate's order, date-descending where the
    aggregate is. *)
Theorem search_returns_exactly_the_matches
  (getTime : string -> option Z) (query : string) (w : World) :
  NonBlank query ->
  let all := fst (loadAllActivity getTime w) in
  let result := fst (searchActivityServer getTime query None w) in
  (forall item, In item result <-> In item all /\ MatchesQuery query item) /\
  (forall item, MatchesQuery query item ->
     count_occ ActivityItem_eq_dec result item = count_occ ActivityItem_eq_dec all item) /\
  result = filter (searchMatches (JS.toLowerCase query)) all /\
  (DateDescending getTime all -> DateDescending getTime result).
Proof.
  intros Hq all result. apply NonBlank_allWhite in Hq.
  assert (Hr : result = filter (searchMatches (JS.toLowerCase query)) all).
  { unfold result, all. now rewrite searchActivityServer_run, loadAllActivity_run. }
  rewrite Hr. repeat split.
  - now apply filter_In in H.
  - apply filter_In in H as [_ H]. now apply searchMatches_spec.
  - intros [Hin Hm]. apply filter_In. split; [exact Hin|].
    now apply searchMatches_spec.
  - intros item Hm. rewrite count_occ_filter.
    apply searchMatches_spec in Hm. now rewrite Hm.
  - apply DateDescending_filter.
Qed.

Lemma search_returns_exactly_the_matches_witness :
  NonBlank "SVELTE" /\
  fst (searchActivityServer IsoDate.getTime "SVELTE" None (worldOf sveltePostConfig)) =
  filter (searchMatches (JS.toLowerCase "SVELTE"))
         (fst (loadAllActivity IsoDate.getTime (worldOf sveltePostConfig))).
Proof.
  assert (H : NonBlank "SVELTE").
  { exists "S"%char. split; [now left | reflexivity]. }
  split; [exact H|].
  apply (search_returns_exactly_the_matches
           IsoDate.getTime "SVELTE" (worldOf sveltePostConfig) H).
Defined.

(** The post matches on its title and on a tag, and is returned once. *)
Example search_matching_twice_returns_once :
  List.length (fst (searchActivityServer IsoDate.getTime "SVELTE" None
                      (worldOf sveltePostConfig))) = 1.
Proof. reflexivity. Qed.

Lemma string_app_assoc (a b c : string) :
  ((a ++ b) ++ c = a ++ (b ++ c))%string.
Proof. induction a as [|x a IH]; simpl; [reflexivity | now rewrite IH]. Qed.

Lemma list_ascii_app (a b : string) :
  list_ascii_of_string (a ++ b) = list_ascii_of_string a ++ list_ascii_of_string b.
Proof. induction a as [|x a IH]; simpl; [reflexivity | now rewrite IH]. Qed.

Lemma allWhite_app (a b : string) :
  allWhite (a ++ b) = allWhite a && allWhite b.
Proof. unfold allWhite. now rewrite list_ascii_app, forallb_app. Qed.

Lemma lowerChar_of_white (c : ascii) :
  JS.isWhiteSpace c = true -> JS.lowerChar c = c.
Proof.
  destruct c as [[] [] [] [] [] [] [] []]; vm_compute; congruence.
Qed.

Lemma toLowerCase_of_white (s : string) :
  allWhite s = true -> JS.toLowerCase s = s.
Proof.
  unfold allWhite. induction s as [|c s IH]; simpl; [reflexivity|].
  intros H. apply andb_true_iff in H as [Hc Hs].
  now rewrite (lowerChar_of_white c Hc), IH.
Qed.

(** C10.  The search term is the query lowercased, not trimmed: for a query
    made of leading white space, a core with a character that is not white
    space, and trailing white space, every returned item has a searched
    text (title, excerpt, author or a tag) in which the leading white
    space, a stretch equal to the core up to case, and the trailing white
    space occur literally next to one another. *)
Theorem search_query_is_not_trimmed
  (getTime : string -> option Z) (lead core trail : string)
  (limit : option Z) (w : World) (item : ActivityItem) :
  allWhite lead = true -> allWhite trail = true -> NonBlank core ->
  In item (fst (searchActivityServer getTime (lead ++ core ++ trail) limit w)) ->
  exists text pre mid post,
    SearchedText item text /\
    text = (pre ++ lead ++ mid ++ trail ++ post)%string /\
    JS.toLowerCase mid = JS.toLowerCase core.
Proof.
  intros Hl Ht Hc Hin. apply NonBlank_allWhite in Hc.
  assert (Hq : allWhite (lead ++ core ++ trail) = false).
  { rewrite !allWhite_app, Hc. now rewrite andb_false_r. }
  rewrite searchActivityServer_run in Hin by exact Hq. simpl in Hin.
  apply limited_incl, filter_In in Hin as [_ Hm].
  apply searchMatches_spec in Hm as (text & Htext & pre' & post' & Hm).
  rewrite !toLowerCase_app in Hm.
  rewrite (toLowerCase_of_white lead Hl), (toLowerCase_of_white trail Ht) in Hm.
  rewrite !string_app_assoc in Hm.
  apply toLowerCase_split in Hm as (pre & s2 & -> & _ & Hm).
  apply toLowerCase_split in Hm as (s3 & s4 & -> & H3 & Hm).
  apply toLowerCase_split in Hm as (mid & s5 & -> & Hmid & Hm).
  apply toLowerCase_split in Hm as (s6 & post & -> & H6 & _).
  apply toLowerCase_white in H3; [|exact Hl].
  apply toLowerCase_white in H6; [|exact Ht].
  subst s3 s6. exists (pre ++ lead ++ mid ++ trail ++ post)%string, pre, mid, post.
  auto.
Qed.

(** The query [" svelte "] finds the post titled "Learning Svelte Today",
    whose title holds the word between two spaces. *)
Lemma search_query_is_not_trimmed_witness :
  exists text pre mid post,
    SearchedText sveltePostItem text /\
    text = (pre ++ " " ++ mid ++ " " ++ post)%string /\
    JS.toLowerCase mid = JS.toLowerCase "svelte".
Proof.
  apply (search_query_is_not_trimmed IsoDate.getTime " " "svelte" " " None
           (worldOf sveltePostConfig) sveltePostItem).
  - reflexivity.
  - reflexivity.
  - exists "s"%char. split; [now left | reflexivity].
  - vm_compute. left. reflexivity.
Defined.

(** Trailing white space in the query changes the answer. *)
Example search_trailing_space_is_significant :
  List.length (fst (searchActivityServer IsoDate.getTime "today" None
                      (worldOf sveltePostConfig))) = 1 /\
  fst (searchActivityServer IsoDate.getTime "today " None (worldOf sveltePostConfig))
  = [].
Proof. split; reflexivity. Qed.

(** ** Where the collected items come from *)

Lemma pushPosts_origin (posts : list BlogPostItem.t) acts w x :
  In x (fst (pushPosts posts acts w)) ->
  In x acts \/
  exists post w', In post posts /\ hidden post = false /\
                  fst (blogPostToActivity post w') = Some x.
Proof.
  revert acts w. induction posts as [|p posts IH]; intros acts w; simpl.
  - auto.
  - rewrite bind_run. destruct (fst (blogPostToActivity p w)) as [it|] eqn:E; intros H.
    + apply IH in H as [H|(post & w' & Hin & Hh & Hp)].
      * apply in_app_or in H as [H|[<-|[]]]; [now left|].
        right. exists p, w. split; [now left|]. split; [|exact E].
        destruct (hidden p) eqn:Hh; [|reflexivity].
        apply blogPostToActivity_None with (w := w) in Hh. congruence.
      * right. exists post, w'. auto.
    + apply IH in H as [H|(post & w' & Hin & Hh & Hp)]; [now left|].
      right. exists post, w'. auto.
Qed.

Lemma pushAll_origin {A} (f : A -> M ActivityItem) (xs : list A) acts w x :
  In x (fst (pushAll f xs acts w)) ->
  In x acts \/ exists a w', In a xs /\ fst (f a w') = x.
Proof.
  revert acts w. induction xs as [|a xs IH]; intros acts w; simpl.
  - auto.
  - rewrite bind_run. intros H.
    apply IH in H as [H|(a' & w' & Hin & Ha)].
    + apply in_app_or in H as [H|[<-|[]]]; [now left|].
      right. exists a, w. auto.
    + right. exists a', w'. auto.
Qed.

Lemma collectActivity_FromSources (w : World) (x : ActivityItem) :
  In x (fst (collectActivity w)) -> FromSources (_config w) x.
Proof.
  destruct (collectActivity_succeeding w) as [-> _].
  unfold normalizeSources, FromSources. rewrite !bind_run. intros H.
  apply pushAll_origin in H as [H|H]; [|now right; right].
  apply pushAll_origin in H as [H|H]; [|now right; left].
  apply pushPosts_origin in H as [[]|H]. now left.
Qed.

(** ** The recent feed *)




Example recent_scenario :
  map type (fst (getRecentActivityServer IsoDate.getTime (Some 100%Z)
                   (worldOf sampleConfig)))
  = [Profile; Product; Post].
Proof. reflexivity. Qed.

(** ** Every query is its answer over the collected items *)

Lemma runQuery_fst (getTime : string -> option Z) (q : Query) (w : World) :
  fst (runQuery getTime q w) = answer getTime q (fst (collectActivity w)).
Proof.
  destruct q as [limit|t limit|c limit|tag limit|query limit]; simpl.
  - now rewrite getRecentActivityServer_run.
  - now rewrite getActivityByTypeServer_run.
  - now rewrite getActivityByCategoryServer_run.
  - now rewrite getActivityByTagServer_run.
  - rewrite blankQuery_allWhite. destruct (allWhite query) eqn:Hq.
    + rewrite searchActivityServer_guard; [reflexivity|].
      now rewrite blankQuery_allWhite.
    + now rewrite searchActivityServer_run.
Qed.

Lemma KeepsConfig_runQuery (getTime : string -> option Z) (q : Query) :
  KeepsConfig (runQuery getTime q).
Proof.
  intros w.
  destruct q as [limit|t limit|c limit|tag limit|query limit]; simpl.
  - rewrite getRecentActivityServer_run. apply KeepsConfig_collectActivity.
  - rewrite getActivityByTypeServer_run. apply KeepsConfig_collectActivity.
  - rewrite getActivityByCategoryServer_run. apply KeepsConfig_collectActivity.
  - rewrite getActivityByTagServer_run. apply KeepsConfig_collectActivity.
  - destruct (allWhite query) eqn:Hq.
    + rewrite searchActivityServer_guard; [reflexivity|].
      now rewrite blankQuery_allWhite.
    + rewrite searchActivityServer_run by exact Hq. apply KeepsConfig_collectActivity.
Qed.

Lemma answer_nil (getTime : string -> option Z) (q : Query) :
  answer getTime q [] = [].
Proof.
  destruct q as [limit|t limit|c limit|tag limit|query limit]; simpl;
    try apply slice0_nil; try apply limited_nil.
  destruct (blankQuery query); [reflexivity | apply limited_nil].
Qed.

(** ** Failing loaders *)

Lemma succeeding_unsetFailing {A} (s : Slot A) :
  succeeding (unsetFailing s) = succeeding s.
Proof.
  unfold succeeding, unsetFailing.
  destruct s as [| |f]; simpl; try reflexivity.
  destruct (f tt) eqn:E; simpl; [now rewrite E | reflexivity].
Qed.

Lemma pushAll_normalForms {A} (f : A -> M ActivityItem) (xs : list A) acts w :
  pushAll f xs acts w = (acts ++ normalForms f xs w, worldAfter f xs w).
Proof.
  revert acts w. induction xs as [|x xs IH]; intros acts w; simpl.
  - now rewrite app_nil_r.
  - rewrite bind_run, IH, <- app_assoc. reflexivity.
Qed.

Lemma pushPosts_normalForms (posts : list BlogPostItem.t) acts w :
  pushPosts posts acts w =
  (acts ++ kept (normalForms blogPostToActivity posts w),
   worldAfter blogPostToActivity posts w).
Proof.
  revert acts w. induction posts as [|p posts IH]; intros acts w; simpl.
  - now rewrite app_nil_r.
  - rewrite bind_run. destruct (fst (blogPostToActivity p w)) as [it|].
    + rewrite IH, <- app_assoc. reflexivity.
    + rewrite IH. reflexivity.
Qed.

Lemma normalizeSources_derived posts profiles products (w : World) :
  fst (normalizeSources posts profiles products w) =
  kept (normalForms blogPostToActivity posts w)
  ++ normalForms profileToActivity profiles (worldAfter blogPostToActivity posts w)
  ++ normalForms productToActivity products
       (worldAfter profileToActivity profiles
          (worldAfter blogPostToActivity posts w)).
Proof.
  unfold normalizeSources.
  rewrite !bind_run, pushPosts_normalForms. simpl fst. simpl snd.
  rewrite pushAll_normalForms. simpl fst. simpl snd.
  rewrite pushAll_normalForms. simpl. now rewrite app_assoc.
Qed.

(** The loops of the aggregator collect the derived items, in their
    order. *)
Lemma collectActivity_derivedItems (w : World) :
  fst (collectActivity w) = derivedItems (_config w) w.
Proof.
  destruct (collectActivity_succeeding w) as [-> _].
  apply normalizeSources_derived.
Qed.

(** C3.  Every query answers over exactly the items derived from the
    succeeding loaders: the normal forms of their visible posts, their
    profiles and their products, in that order.  A loader that throws
    contributes nothing, as an unset one, and the other sources are
    normalized as they are: next to failing post and product loaders the
    collected items are the normal forms of the profiles; the answer is
    the one of the configuration without the failing loaders; and with no
    succeeding loader the answer is the empty sequence. *)
Theorem failing_loaders_contribute_nothing
  (getTime : string -> option Z) (q : Query) (w : World) :
  let c := _config w in
  fst (collectActivity w) = derivedItems c w /\
  fst (runQuery getTime q w) = answer getTime q (derivedItems c w) /\
  fst (runQuery getTime q w) =
  fst (runQuery getTime q (snd (setConfig (withoutFailing c) w))) /\
  (succeeding (loadBlogPosts c) = [] ->
   succeeding (loadProducts c) = [] ->
   fst (collectActivity w) =
   normalForms profileToActivity (succeeding (loadProfiles c)) w) /\
  (succeeding (loadBlogPosts c) = [] ->
   succeeding (loadProfiles c) = [] ->
   succeeding (loadProducts c) = [] ->
   fst (runQuery getTime q w) = []).
Proof.
  intros c.
  assert (H0 : fst (collectActivity w) = derivedItems c w)
    by apply collectActivity_derivedItems.
  assert (H1 : fst (runQuery getTime q w) = answer getTime q (derivedItems c w)).
  { now rewrite runQuery_fst, H0. }
  split; [exact H0|]. split; [exact H1|]. split; [|split].
  - rewrite !runQuery_fst. f_equal.
    destruct (collectActivity_succeeding w) as [-> _].
    destruct (collectActivity_succeeding (snd (setConfig (withoutFailing c) w)))
      as [-> _].
    simpl. rewrite !succeeding_unsetFailing.
    now apply ClockOnly_normalizeSources.
  - intros Hp Hd. rewrite H0. unfold derivedItems. fold c. rewrite Hp, Hd.
    simpl. apply app_nil_r.
  - intros Hp Hf Hd. rewrite H1. unfold derivedItems. fold c.
    rewrite Hp, Hf, Hd. apply answer_nil.
Qed.

(** A failing post loader next to a working profile loader yields the
    profile-derived items; three failing loaders yield nothing. *)
Lemma failing_loaders_contribute_nothing_witness :
  map title (fst (getRecentActivityServer IsoDate.getTime None
                    (worldOf failingPostsConfig))) = ["Bob Smith"] /\
  fst (collectActivity (worldOf failingPostsConfig))
  = normalForms profileToActivity
      [makeProfile "Bob Smith" "bob-smith" (Some "2025-04-01")]
      (worldOf failingPostsConfig) /\
  fst (getRecentActivityServer IsoDate.getTime None (worldOf allFailingConfig)) = [].
Proof.
  split; [reflexivity|]. split.
  - apply (proj1 (proj2 (proj2 (proj2 (failing_loaders_contribute_nothing
             IsoDate.getTime (Recent None) (worldOf failingPostsConfig))))));
      reflexivity.
  - apply (proj2 (proj2 (proj2 (proj2 (failing_loaders_contribute_nothing
             IsoDate.getTime (Recent None) (worldOf allFailingConfig))))));
      reflexivity.
Defined.

Example failing_posts_scenario :
  map type (fst (getRecentActivityServer IsoDate.getTime None
                   (worldOf failingPostsConfig))) = [Profile] /\
  calls (snd (getRecentActivityServer IsoDate.getTime None
                (worldOf failingPostsConfig))) = [LoadBlogPosts; LoadProfiles].
Proof. split; reflexivity. Qed.

(** ** Calling a query twice *)

(** C8, as stated.  A post without a date takes the time of the call as its
    date, so two calls of the same query a millisecond apart differ. *)
Lemma recent_differs_between_calls_for_undated_post :
  map date (fst (getRecentActivityServer IsoDate.getTime None (worldOf undatedConfig)))
  = ["2025-07-01T12:00:00.000Z"] /\
  map date (fst (getRecentActivityServer IsoDate.getTime None
                   (snd (getRecentActivityServer IsoDate.getTime None
                           (worldOf undatedConfig)))))
  = ["2025-07-01T12:00:00.001Z"] /\
  fst (getRecentActivityServer IsoDate.getTime None
         (snd (getRecentActivityServer IsoDate.getTime None (worldOf undatedConfig))))
  <> fst (getRecentActivityServer IsoDate.getTime None (worldOf undatedConfig)).
Proof.
  split; [reflexivity|]. split; [reflexivity|].
  intros H. apply (f_equal (map date)) in H. vm_compute in H. discriminate H.
Qed.

Lemma collectActivity_dated (w w' : World) :
  allDated (_config w) = true -> _config w' = _config w ->
  fst (collectActivity w') = fst (collectActivity w).
Proof.
  intros Hd Hc.
  destruct (collectActivity_succeeding w) as [-> _].
  destruct (collectActivity_succeeding w') as [-> _].
  rewrite Hc. unfold allDated in Hd.
  apply andb_true_iff in Hd as [Hd H3]. apply andb_true_iff in Hd as [H1 H2].
  now rewrite (Inert_normalizeSources _ _ _ H1 H2 H3 w' w).
Qed.

(** C8, amended.  Where every raw item returned by the loaders carries a
    date of its own (or is a hidden post), a query called again with the
    same arguments under the same configuration yields the same result,
    whatever the clock shows; this holds for the second of two successive
    calls in particular. *)
Theorem queries_repeat_on_dated_items
  (getTime : string -> option Z) (q : Query) (w : World) :
  allDated (_config w) = true ->
  (forall w', _config w' = _config w ->
              fst (runQuery getTime q w') = fst (runQuery getTime q w)) /\
  fst (runQuery getTime q (snd (runQuery getTime q w))) = fst (runQuery getTime q w).
Proof.
  intros Hd.
  assert (H : forall w', _config w' = _config w ->
                         fst (runQuery getTime q w') = fst (runQuery getTime q w)).
  { intros w' Hc. rewrite !runQuery_fst. f_equal. now apply collectActivity_dated. }
  split; [exact H|]. apply H. apply KeepsConfig_runQuery.
Qed.

Lemma queries_repeat_on_dated_items_witness :
  fst (getRecentActivityServer IsoDate.getTime None
         (snd (getRecentActivityServer IsoDate.getTime None (worldOf sampleConfig))))
  = fst (getRecentActivityServer IsoDate.getTime None (worldOf sampleConfig)).
Proof.
  exact (proj2 (queries_repeat_on_dated_items
                  IsoDate.getTime (Recent None) (worldOf sampleConfig) eq_refl)).
Defined.

(** ** The invalid date, whatever the sort does with it *)

Lemma DateDescending_valid (getTime : string -> option Z) (l : list ActivityItem) :
  DateDescending getTime l -> 2 <= List.length l ->
  forall x, In x l -> validDate getTime x = true.
Proof.
  unfold DateDescending. induction 1 as [|a r Hs IH Hh]; simpl; [lia|].
  intros Hlen x Hx. destruct r as [|b r']; [simpl in Hlen; lia|].
  inversion Hh as [|? ? Hab]; subst.
  assert (Hv : validDate getTime a = true /\ validDate getTime b = true).
  { unfold newerOrSame, validDate in *.
    destruct (getTime (date a)), (getTime (date b)); tauto. }
  destruct Hx as [<-|Hx]; [tauto|].
  destruct r' as [|c r''].
  - destruct Hx as [<-|[]]. tauto.
  - apply IH; [simpl; lia | exact Hx].
Qed.

(** No arrangement of the items of [invalidDateConfig] is in descending
    date order: the failure shown above does not hang on the order in which
    the sort leaves the item with the invalid date. *)
Lemma invalid_date_leaves_no_date_order (l : list ActivityItem) :
  Permutation l (fst (collectActivity (worldOf invalidDateConfig))) ->
  ~ DateDescending IsoDate.getTime l.
Proof.
  intros Hp Hs.
  pose proof (Permutation_length Hp) as Hlen.
  assert (Hin : In (fst (profileToActivity
                           (makeProfile "Bob Smith" "bob-smith" (Some "not a date"))
                           (worldOf emptyConfig))) l).
  { eapply Permutation_in; [symmetry; exact Hp|]. right. left. reflexivity. }
  apply (DateDescending_valid _ _ Hs) in Hin; [discriminate Hin|].
  rewrite Hlen. simpl. lia.
Qed.

(** * Further properties of config.ts and feed.ts *)

(** ** The call log *)

Lemma KeepsCalls_ret {A} (a : A) : KeepsCalls (ret a).
Proof. intros w. reflexivity. Qed.

Lemma KeepsCalls_bind {A B} (m : M A) (k : A -> M B) :
  KeepsCalls m -> (forall a, KeepsCalls (k a)) -> KeepsCalls (bind m k).
Proof. intros Hm Hk w. rewrite bind_run, Hk. apply Hm. Qed.

Lemma KeepsCalls_now : KeepsCalls nowISOString.
Proof. intros w. reflexivity. Qed.

#[local] Hint Resolve KeepsCalls_ret KeepsCalls_now : world.

Lemma KeepsCalls_orNow a : KeepsCalls (orNow a).
Proof. destruct a as [s|]; simpl; [destruct (String.eqb s "")|]; auto with world. Qed.

Lemma KeepsCalls_post post : KeepsCalls (blogPostToActivity post).
Proof.
  unfold blogPostToActivity. destruct (_ || _); [auto with world|].
  monadic (@KeepsCalls_bind) KeepsCalls_orNow.
Qed.

Lemma KeepsCalls_profile profile : KeepsCalls (profileToActivity profile).
Proof. unfold profileToActivity. monadic (@KeepsCalls_bind) KeepsCalls_orNow. Qed.

Lemma KeepsCalls_product product : KeepsCalls (productToActivity product).
Proof. unfold productToActivity. monadic (@KeepsCalls_bind) KeepsCalls_orNow. Qed.

Lemma KeepsCalls_pushAll {A} (f : A -> M ActivityItem) xs acts :
  (forall x, KeepsCalls (f x)) -> KeepsCalls (pushAll f xs acts).
Proof.
  intros Hf. revert acts. induction xs as [|x xs IH]; intros acts; simpl.
  - auto with world.
  - apply KeepsCalls_bind; [apply Hf | intros; apply IH].
Qed.

Lemma KeepsCalls_pushPosts posts acts : KeepsCalls (pushPosts posts acts).
Proof.
  revert acts. induction posts as [|p posts IH]; intros acts; simpl.
  - auto with world.
  - apply KeepsCalls_bind; [apply KeepsCalls_post | intros [it|]; apply IH].
Qed.

Lemma tryLoad_calls {A} name (slot : Slot A)
  (body : list A -> list ActivityItem -> M (list ActivityItem)) acts w :
  (forall xs acts, KeepsCalls (body xs acts)) ->
  calls (snd (tryLoad name slot body acts w)) =
  calls w ++ match get slot with Some _ => [name] | None => [] end.
Proof.
  intros Hbody. unfold tryLoad. destruct (get slot) as [f|].
  - rewrite bind_run. simpl. destruct (f tt) as [xs|]; [|reflexivity].
    now rewrite Hbody.
  - simpl. now rewrite app_nil_r.
Qed.

Lemma collectActivity_calls (w : World) :
  calls (snd (collectActivity w)) = calls w ++ configuredLoaders (_config w).
Proof.
  unfold collectActivity, configuredLoaders.
  rewrite bind_run, getConfig_run. simpl fst. simpl snd.
  rewrite !bind_run, !tryLoad_calls, <- !app_assoc; try reflexivity; intros;
    first [ apply KeepsCalls_pushPosts
          | apply KeepsCalls_pushAll;
            first [apply KeepsCalls_profile | apply KeepsCalls_product] ].
Qed.

Lemma runQuery_snd (getTime : string -> option Z) (q : Query) (w : World) :
  snd (runQuery getTime q w) =
  if isBlankSearch q then w else snd (collectActivity w).
Proof.
  destruct q as [limit|t limit|c limit|tag limit|query limit]; simpl.
  - now rewrite getRecentActivityServer_run.
  - now rewrite getActivityByTypeServer_run.
  - now rewrite getActivityByCategoryServer_run.
  - now rewrite getActivityByTagServer_run.
  - destruct (blankQuery query) eqn:Hq.
    + now rewrite searchActivityServer_guard.
    + rewrite searchActivityServer_run; [reflexivity|].
      now rewrite <- blankQuery_allWhite.
Qed.

(** X3.  A query leaves the configuration as it found it and invokes every
    configured loader once, posts first, then profiles, then products; an
    unset loader is not invoked, and a search that stops at its guard
    invokes none. *)
Theorem query_invokes_each_configured_loader_once
  (getTime : string -> option Z) (q : Query) (w : World) :
  _config (snd (runQuery getTime q w)) = _config w /\
  calls (snd (runQuery getTime q w)) =
  calls w ++ (if isBlankSearch q then [] else configuredLoaders (_config w)).
Proof.
  rewrite runQuery_snd. destruct (isBlankSearch q).
  - split; [reflexivity | now rewrite app_nil_r].
  - split; [apply KeepsConfig_collectActivity | apply collectActivity_calls].
Qed.

(** ** The configuration store, continued *)

Lemma spread_assoc {A} (o a b : Slot A) :
  spread (spread o a) b = spread o (spread a b).
Proof. now destruct b. Qed.

Lemma spread_idem {A} (o a : Slot A) : spread (spread o a) a = spread o a.
Proof. now destruct a. Qed.

Lemma World_eta (w : World) :
  {| _config :=
       {| loadBlogPosts := loadBlogPosts (_config w);
          loadProfiles := loadProfiles (_config w);
          loadProducts := loadProducts (_config w) |};
     clock := clock w;
     calls := calls w |} = w.
Proof. destruct w as [[a b c] k l]. reflexivity. Qed.

(** X2.  Two successive [configure] calls amount to one call with the two
    partial configurations merged, the later one winning on the fields it
    holds; configuring the same partial configuration twice, or the empty
    object once, changes nothing more. *)
Theorem configure_composes (a b : ActivityFeedConfig) (w : World) :
  snd (configure b (snd (configure a w))) = snd (configure (mergeConfig a b) w) /\
  snd (configure a (snd (configure a w))) = snd (configure a w) /\
  snd (configure emptyConfig w) = w.
Proof.
  unfold configure, setConfig, mergeConfig. simpl. repeat split.
  - now rewrite !spread_assoc.
  - now rewrite !spread_idem.
  - apply World_eta.
Qed.

(** X1.  After [resetConfig] the configuration is the empty one, whatever
    was configured, and every query returns the empty sequence without
    invoking a loader. *)
Theorem reset_empties_the_feed
  (getTime : string -> option Z) (q : Query) (w : World) :
  fst (getConfig (snd (resetConfig w))) = emptyConfig /\
  fst (runQuery getTime q (snd (resetConfig w))) = [] /\
  calls (snd (runQuery getTime q (snd (resetConfig w)))) = calls w.
Proof.
  split; [reflexivity|]. split.
  - rewrite runQuery_fst.
    destruct (collectActivity_succeeding (snd (resetConfig w))) as [-> _].
    apply answer_nil.
  - rewrite runQuery_snd. destruct (isBlankSearch q); [reflexivity|].
    rewrite collectActivity_calls. simpl. apply app_nil_r.
Qed.

(** ** The wall clock *)

Lemma Reads_ret {A} (a : A) : Reads 0 (ret a).
Proof. intros w n. reflexivity. Qed.

Lemma Reads_bind {A B} (m : M A) (k : A -> M B) (k1 k2 : nat) :
  Reads k1 m -> (forall a, Reads k2 (k a)) -> Reads (k1 + k2) (bind m k).
Proof.
  intros Hm Hk w n. rewrite bind_run, Hk, Hm. f_equal. lia.
Qed.

Lemma Reads_now : Reads 1 nowISOString.
Proof. intros w n. reflexivity. Qed.

Lemma Reads_eq {A} (m : M A) (k k' : nat) : k = k' -> Reads k m -> Reads k' m.
Proof. now intros ->. Qed.

Lemma Reads_orNow a : Reads (if JS.truthy a then 0 else 1) (orNow a).
Proof.
  destruct a as [s|]; simpl; [|apply Reads_now].
  destruct (String.eqb s ""); simpl; [apply Reads_now | apply Reads_ret].
Qed.

Lemma Reads_post post :
  Reads (if postDated post then 0 else 1) (blogPostToActivity post).
Proof.
  unfold blogPostToActivity, postDated. fold (hidden post).
  destruct (hidden post); simpl; [apply Reads_ret|].
  eapply Reads_eq; [|apply Reads_bind; [apply Reads_orNow | intros; apply Reads_ret]].
  lia.
Qed.

Lemma Reads_profile profile :
  Reads (if profileDated profile then 0 else 1) (profileToActivity profile).
Proof.
  unfold profileToActivity, profileDated.
  eapply Reads_eq; [|apply Reads_bind; [apply Reads_orNow | intros; apply Reads_ret]].
  lia.
Qed.

Lemma Reads_product product :
  Reads (if productDated product then 0 else 1) (productToActivity product).
Proof.
  unfold productToActivity, productDated.
  eapply Reads_eq; [|apply Reads_bind; [apply Reads_orNow | intros; apply Reads_ret]].
  lia.
Qed.

Lemma undated_cons {A} (dated : A -> bool) (x : A) (xs : list A) :
  List.length (filter (fun a => negb (dated a)) (x :: xs)) =
  (if dated x then 0 else 1) + List.length (filter (fun a => negb (dated a)) xs).
Proof. simpl. now destruct (dated x). Qed.

Lemma Reads_pushAll {A} (f : A -> M ActivityItem) (dated : A -> bool) xs acts :
  (forall x, Reads (if dated x then 0 else 1) (f x)) ->
  Reads (List.length (filter (fun a => negb (dated a)) xs)) (pushAll f xs acts).
Proof.
  intros Hf. revert acts. induction xs as [|x xs IH]; intros acts.
  - apply Reads_ret.
  - rewrite undated_cons. simpl pushAll.
    apply Reads_bind; [apply Hf | intros; apply IH].
Qed.

Lemma Reads_pushPosts posts acts :
  Reads (List.length (filter (fun p => negb (postDated p)) posts))
        (pushPosts posts acts).
Proof.
  revert acts. induction posts as [|p posts IH]; intros acts.
  - apply Reads_ret.
  - rewrite undated_cons. simpl pushPosts.
    apply Reads_bind; [apply Reads_post | intros [it|]; apply IH].
Qed.

Lemma Reads_normalizeSources posts profiles products :
  Reads (List.length (filter (fun p => negb (postDated p)) posts)
         + List.length (filter (fun p => negb (profileDated p)) profiles)
         + List.length (filter (fun p => negb (productDated p)) products))
        (normalizeSources posts profiles products).
Proof.
  unfold normalizeSources. rewrite <- Nat.add_assoc.
  apply Reads_bind; [apply Reads_pushPosts | intros a1].
  apply Reads_bind; [|intros a2]; apply Reads_pushAll;
    auto using Reads_profile, Reads_product.
Qed.

(** X4.  A query that reaches the aggregator reads the clock once for
    every raw item that has no date of its own (hidden posts apart) and
    not otherwise: with dated items throughout, the clock is not read. *)
Theorem query_reads_clock_once_per_undated_item
  (getTime : string -> option Z) (q : Query) (w : World) (n : nat) :
  isBlankSearch q = false ->
  clock (snd (runQuery getTime q w)) n = clock w (undatedCount (_config w) + n).
Proof.
  intros Hq. rewrite runQuery_snd, Hq.
  destruct (collectActivity_succeeding w) as [_ ->].
  apply Reads_normalizeSources.
Qed.

(** After a query over one post without a date the clock is one reading
    further. *)
Lemma query_reads_clock_once_per_undated_item_witness :
  clock (snd (runQuery IsoDate.getTime (Recent None) (worldOf undatedConfig))) 0
  = clock (worldOf undatedConfig) (undatedCount (_config (worldOf undatedConfig)) + 0).
Proof.
  apply (query_reads_clock_once_per_undated_item
           IsoDate.getTime (Recent None) (worldOf undatedConfig) 0).
  reflexivity.
Defined.

(** ** The size of the aggregate *)

Lemma pushAll_length {A} (f : A -> M ActivityItem) (xs : list A) acts w :
  List.length (fst (pushAll f xs acts w)) = List.length acts + List.length xs.
Proof.
  revert acts w. induction xs as [|x xs IH]; intros acts w; simpl; [lia|].
  rewrite bind_run, IH, length_app. simpl. lia.
Qed.

(** X5.  The aggregate holds one item for every post that is neither
    unpublished nor a draft, every profile and every product returned by
    a succeeding loader: nothing is dropped, merged or duplicated. *)
Theorem aggregate_has_one_item_per_visible_source_item
  (getTime : string -> option Z) (w : World) :
  List.length (fst (loadAllActivity getTime w)) = visibleCount (_config w).
Proof.
  rewrite loadAllActivity_run. simpl. unfold aggregateOf.
  rewrite (Permutation_length (sort_perm _ _)).
  destruct (collectActivity_succeeding w) as [-> _].
  unfold normalizeSources, visibleCount. rewrite !bind_run, !pushAll_length.
  rewrite pushPosts_length. reflexivity.
Qed.

(** ** What every answer is made of *)

Lemma answer_incl (getTime : string -> option Z) (q : Query) items x :
  In x (answer getTime q items) -> In x (aggregateOf getTime items).
Proof.
  destruct q as [limit|t limit|c limit|tag limit|query limit]; simpl; intros H.
  - now apply slice0_incl in H.
  - apply limited_incl, filter_In in H. tauto.
  - apply limited_incl, filter_In in H. tauto.
  - apply limited_incl, filter_In in H. tauto.
  - destruct (blankQuery query); [contradiction|].
    apply limited_incl, filter_In in H. tauto.
Qed.

Lemma runQuery_incl (getTime : string -> option Z) (q : Query) (w : World) x :
  In x (fst (runQuery getTime q w)) -> In x (fst (loadAllActivity getTime w)).
Proof.
  rewrite runQuery_fst, loadAllActivity_run. apply answer_incl.
Qed.

Lemma loadAllActivity_FromSources (getTime : string -> option Z) (w : World) x :
  In x (fst (loadAllActivity getTime w)) -> FromSources (_config w) x.
Proof.
  rewrite loadAllActivity_run. simpl. intros H.
  apply collectActivity_FromSources.
  eapply Permutation_in; [apply sort_perm | exact H].
Qed.

(** X6.  Whatever the query and its arguments, every returned item is an
    item of the aggregate and the normal form of a raw item returned by a
    configured, succeeding loader, of a post that is neither unpublished
    nor a draft where it is a post: no query invents an item or lets a
    hidden post through. *)
Theorem query_returns_only_source_items
  (getTime : string -> option Z) (q : Query) (w : World) (x : ActivityItem) :
  In x (fst (runQuery getTime q w)) ->
  In x (fst (loadAllActivity getTime w)) /\ FromSources (_config w) x.
Proof.
  intros H. apply runQuery_incl in H.
  split; [exact H | now apply loadAllActivity_FromSources in H].
Qed.

Lemma query_returns_only_source_items_witness :
  In sveltePostItem (fst (loadAllActivity IsoDate.getTime (worldOf sveltePostConfig))) /\
  FromSources (_config (worldOf sveltePostConfig)) sveltePostItem.
Proof.
  apply (query_returns_only_source_items
           IsoDate.getTime (Search "svelte" None) (worldOf sveltePostConfig)).
  vm_compute. left. reflexivity.
Defined.

Lemma FromSources_WellFormed (c : ActivityFeedConfig) (x : ActivityItem) :
  FromSources c x -> WellFormed x.
Proof.
  unfold WellFormed.
  intros [(post & w & _ & Hh & H)|[(profile & w & _ & H)|(product & w & _ & H)]].
  - unfold blogPostToActivity in H. fold (hidden post) in H. rewrite Hh in H.
    rewrite bind_run in H. simpl in H. inversion H. simpl. split; discriminate.
  - unfold profileToActivity in H. rewrite bind_run in H. simpl in H.
    subst x. simpl. split; [discriminate | now split].
  - unfold productToActivity in H. rewrite bind_run in H. simpl in H.
    subst x. simpl. split; [discriminate | now split].
Qed.

(** X7.  Every item a query returns carries a tag sequence (possibly empty,
    never absent); a post item has an author; a profile item has the
    category "profile" and its title as author; a product item has the
    category "product" and no author. *)
Theorem query_items_are_well_formed
  (getTime : string -> option Z) (q : Query) (w : World) (x : ActivityItem) :
  In x (fst (runQuery getTime q w)) -> WellFormed x.
Proof.
  intros H. apply runQuery_incl, loadAllActivity_FromSources in H.
  exact (FromSources_WellFormed _ _ H).
Qed.

Lemma query_items_are_well_formed_witness : WellFormed sveltePostItem.
Proof.
  apply (query_items_are_well_formed
           IsoDate.getTime (Recent None) (worldOf sveltePostConfig)).
  vm_compute. left. reflexivity.
Defined.

(** ** The date is always there *)

Lemma NonEmptyClock_now (w : World) :
  NonEmptyClock w ->
  fst (nowISOString w) <> "" /\ NonEmptyClock (snd (nowISOString w)).
Proof. intros H. split; [apply H | intros n; apply H]. Qed.

Lemma NonEmptyClock_orNow a (w : World) :
  NonEmptyClock w ->
  fst (orNow a w) <> "" /\ NonEmptyClock (snd (orNow a w)).
Proof.
  intros H. destruct a as [s|]; simpl; [|now apply NonEmptyClock_now].
  destruct (String.eqb s "") eqn:E; [now apply NonEmptyClock_now|].
  split; [now apply String.eqb_neq | exact H].
Qed.

Lemma NonEmptyClock_post post (w : World) :
  NonEmptyClock w ->
  match fst (blogPostToActivity post w) with
  | Some x => date x <> ""
  | None => True
  end /\ NonEmptyClock (snd (blogPostToActivity post w)).
Proof.
  intros H. unfold blogPostToActivity. destruct (_ || _); [now split|].
  rewrite bind_run. simpl. now apply NonEmptyClock_orNow.
Qed.

Lemma NonEmptyClock_profile profile (w : World) :
  NonEmptyClock w ->
  date (fst (profileToActivity profile w)) <> "" /\
  NonEmptyClock (snd (profileToActivity profile w)).
Proof.
  intros H. unfold profileToActivity. rewrite bind_run. simpl.
  now apply NonEmptyClock_orNow.
Qed.

Lemma NonEmptyClock_product product (w : World) :
  NonEmptyClock w ->
  date (fst (productToActivity product w)) <> "" /\
  NonEmptyClock (snd (productToActivity product w)).
Proof.
  intros H. unfold productToActivity. rewrite bind_run. simpl.
  now apply NonEmptyClock_orNow.
Qed.

Lemma pushAll_dates {A} (f : A -> M ActivityItem) (xs : list A) acts w :
  (forall x w, NonEmptyClock w ->
     date (fst (f x w)) <> "" /\ NonEmptyClock (snd (f x w))) ->
  NonEmptyClock w -> Forall (fun x => date x <> "") acts ->
  Forall (fun x => date x <> "") (fst (pushAll f xs acts w)) /\
  NonEmptyClock (snd (pushAll f xs acts w)).
Proof.
  intros Hf. revert acts w. induction xs as [|a xs IH]; intros acts w Hw Ha; simpl.
  - now split.
  - rewrite bind_run. destruct (Hf a w Hw) as [Hd Hw']. apply IH; [exact Hw'|].
    apply Forall_app. split; [exact Ha | now constructor].
Qed.

Lemma pushPosts_dates (posts : list BlogPostItem.t) acts w :
  NonEmptyClock w -> Forall (fun x => date x <> "") acts ->
  Forall (fun x => date x <> "") (fst (pushPosts posts acts w)) /\
  NonEmptyClock (snd (pushPosts posts acts w)).
Proof.
  revert acts w. induction posts as [|p posts IH]; intros acts w Hw Ha; simpl.
  - now split.
  - rewrite bind_run. destruct (NonEmptyClock_post p w Hw) as [Hd Hw'].
    destruct (fst (blogPostToActivity p w)) as [it|]; apply IH; try assumption.
    apply Forall_app. split; [exact Ha | now constructor].
Qed.

Lemma normalizeSources_dates posts profiles products (w : World) :
  NonEmptyClock w ->
  Forall (fun x => date x <> "") (fst (normalizeSources posts profiles products w)).
Proof.
  intros Hw. unfold normalizeSources. rewrite !bind_run.
  destruct (pushPosts_dates posts [] w Hw (Forall_nil _)) as [H1 Hw1].
  destruct (pushAll_dates profileToActivity profiles _ _
              NonEmptyClock_profile Hw1 H1) as [H2 Hw2].
  exact (proj1 (pushAll_dates productToActivity products _ _
                  NonEmptyClock_product Hw2 H2)).
Qed.

(** X8.  As long as the clock never shows the empty string, the date of
    every returned item is a non-empty string: it is the first non-empty
    date field of the raw item, or the time of the call. *)
Theorem query_items_have_a_date
  (getTime : string -> option Z) (q : Query) (w : World) (x : ActivityItem) :
  NonEmptyClock w ->
  In x (fst (runQuery getTime q w)) ->
  date x <> "".
Proof.
  intros Hw H. apply runQuery_incl in H. rewrite loadAllActivity_run in H.
  simpl in H. apply (Permutation_in _ (sort_perm _ _)) in H.
  destruct (collectActivity_succeeding w) as [E _]. rewrite E in H.
  revert x H. apply (proj1 (Forall_forall (fun x => date x <> "") _)).
  now apply normalizeSources_dates.
Qed.

(** The post without a date gets the clock's reading. *)
Lemma query_items_have_a_date_witness :
  map date (fst (runQuery IsoDate.getTime (Recent None) (worldOf undatedConfig)))
  = ["2025-07-01T12:00:00.000Z"] /\
  Forall (fun x => date x <> "")
         (fst (runQuery IsoDate.getTime (Recent None) (worldOf undatedConfig))).
Proof.
  split; [reflexivity|].
  apply Forall_forall. intros x Hx.
  apply (query_items_have_a_date IsoDate.getTime (Recent None) (worldOf undatedConfig)).
  - intros n. destruct n; discriminate.
  - exact Hx.
Defined.

(** ** The filters *)

Lemma ActivityType_eqb_eq (a b : ActivityType) :
  ActivityType_eqb a b = true <-> a = b.
Proof. destruct a, b; simpl; split; congruence. Qed.

Lemma optEq_eq (a : option string) (s : string) :
  JS.optEq a s = true <-> a = Some s.
Proof.
  destruct a as [x|]; simpl; [|split; discriminate].
  rewrite String.eqb_eq. split; congruence.
Qed.

Lemma hasTag_spec (tag : string) (item : ActivityItem) :
  hasTag tag item = true <-> HasTag tag item.
Proof.
  unfold hasTag, HasTag. destruct (tags item) as [l|].
  - rewrite existsb_exists. split.
    + intros (t & Hin & Ht). apply String.eqb_eq in Ht. subst t. now exists l.
    + intros (l' & Hl & Hin). inversion Hl; subst l'.
      exists tag. split; [exact Hin | apply String.eqb_refl].
  - split; [discriminate | intros (l & Hl & _); discriminate].
Qed.

Lemma filter_by_type_length (l : list ActivityItem) :
  List.length (filter (fun item => ActivityType_eqb (type item) Post) l)
  + List.length (filter (fun item => ActivityType_eqb (type item) Profile) l)
  + List.length (filter (fun item => ActivityType_eqb (type item) Product) l)
  = List.length l.
Proof.
  induction l as [|x l IH]; simpl; [reflexivity|].
  destruct (type x); simpl; lia.
Qed.

(** X9.  Without a limit [getActivityByTypeServer(t)] returns the items of
    the aggregate whose type is [t], in the order of the aggregate, which
    is what filtering a long enough recent feed gives; the answers for the
    three types together account for every item of the aggregate once. *)
Theorem by_type_partitions_the_aggregate
  (getTime : string -> option Z) (w : World) :
  let all := fst (loadAllActivity getTime w) in
  let byType t := fst (getActivityByTypeServer getTime t None w) in
  (forall t x, In x (byType t) <-> In x all /\ type x = t) /\
  (forall t, byType t =
             filter (fun item => ActivityType_eqb (type item) t)
                    (fst (getRecentActivityServer getTime
                            (Some (Z.of_nat (List.length all))) w))) /\
  List.length (byType Post) + List.length (byType Profile)
  + List.length (byType Product) = List.length all.
Proof.
  intros all byType.
  assert (E : forall t, byType t =
                        filter (fun item => ActivityType_eqb (type item) t) all).
  { intros t. unfold byType, all.
    now rewrite getActivityByTypeServer_run, loadAllActivity_run. }
  split; [|split].
  - intros t x. rewrite E, filter_In, ActivityType_eqb_eq. reflexivity.
  - intros t. rewrite E. f_equal. unfold all.
    rewrite getRecentActivityServer_run, loadAllActivity_run. simpl.
    now rewrite slice0_nat, firstn_all.
  - rewrite !E. apply filter_by_type_length.
Qed.

(** X10.  Without a limit [getActivityByCategoryServer(c)] returns the
    items of the aggregate whose [category] or whose [productCategory] is
    exactly [c]; so "profile" finds every profile item and "product" every
    product item, whatever the product's own category. *)
Theorem by_category_matches_either_field
  (getTime : string -> option Z) (w : World) :
  let all := fst (loadAllActivity getTime w) in
  let byCategory c := fst (getActivityByCategoryServer getTime c None w) in
  (forall c x, In x (byCategory c) <->
               In x all /\ (category x = Some c \/ productCategory x = Some c)) /\
  (forall x, In x all -> type x = Profile -> In x (byCategory "profile")) /\
  (forall x, In x all -> type x = Product -> In x (byCategory "product")).
Proof.
  intros all byCategory.
  assert (E : forall c x, In x (byCategory c) <->
                In x all /\ (category x = Some c \/ productCategory x = Some c)).
  { intros c x. unfold byCategory, all.
    rewrite getActivityByCategoryServer_run, loadAllActivity_run. simpl.
    now rewrite filter_In, orb_true_iff, !optEq_eq. }
  split; [exact E|].
  split; intros x Hx Ht; apply E; (split; [exact Hx|]); left;
    apply loadAllActivity_FromSources, FromSources_WellFormed in Hx;
    destruct Hx as [_ Hx]; rewrite Ht in Hx; tauto.
Qed.

(** X11.  Without a limit [getActivityByTagServer(tag)] returns the items
    of the aggregate among whose tags [tag] occurs exactly, in the order
    of the aggregate. *)
Theorem by_tag_matches_exact_tag
  (getTime : string -> option Z) (tag : string) (w : World) (x : ActivityItem) :
  In x (fst (getActivityByTagServer getTime tag None w)) <->
  In x (fst (loadAllActivity getTime w)) /\ HasTag tag x.
Proof.
  rewrite getActivityByTagServer_run, loadAllActivity_run. simpl.
  now rewrite filter_In, hasTag_spec.
Qed.

Lemma Infix_refl (s : string) : Infix s s.
Proof.
  exists "", "". simpl. induction s as [|c s IH]; simpl; [reflexivity|].
  now rewrite <- IH.
Qed.

(** X12.  For a tag with a character that is not white space, everything
    [getActivityByTagServer(tag)] returns is also returned by
    [searchActivityServer(tag)]: the search sees the tags too, and up to
    case. *)
Theorem tagged_items_are_found_by_search
  (getTime : string -> option Z) (tag : string) (w : World) (x : ActivityItem) :
  NonBlank tag ->
  In x (fst (getActivityByTagServer getTime tag None w)) ->
  In x (fst (searchActivityServer getTime tag None w)).
Proof.
  intros Hq H. apply NonBlank_allWhite in Hq.
  rewrite getActivityByTagServer_run in H. simpl in H.
  apply filter_In in H as [Hin Ht]. apply hasTag_spec in Ht as (l & Hl & Htag).
  rewrite searchActivityServer_run by exact Hq. simpl.
  apply filter_In. split; [exact Hin|]. apply searchMatches_spec.
  exists tag. split; [|apply Infix_refl].
  right; right; right. now exists l.
Qed.

Lemma tagged_items_are_found_by_search_witness :
  In sveltePostItem
     (fst (searchActivityServer IsoDate.getTime "typescript" None
             (worldOf sveltePostConfig))).
Proof.
  apply (tagged_items_are_found_by_search
           IsoDate.getTime "typescript" (worldOf sveltePostConfig) sveltePostItem).
  - exists "t"%char. split; [now left | reflexivity].
  - vm_compute. left. reflexivity.
Defined.

(** ** Limits *)

Lemma limited_nat (l : list ActivityItem) (n : nat) :
  limited l (Some (Z.of_nat n)) = firstn n l.
Proof. apply slice0_nat. Qed.

Lemma slice0_negative {A} (l : list A) (k : nat) :
  0 < k -> JS.slice0 l (- Z.of_nat k) = firstn (List.length l - k) l.
Proof.
  intros Hk. unfold JS.slice0.
  destruct (Z.ltb_spec (- Z.of_nat k) 0) as [_|H]; [|lia].
  f_equal. lia.
Qed.

(** X13.  On the four queries whose limit is optional, a limit [n] keeps
    the first [n] items of the unlimited answer, so a limit of 0 gives the
    empty sequence and a limit beyond the number of matches gives them
    all. *)
Theorem limit_keeps_a_prefix_of_the_matches
  (getTime : string -> option Z) (n : nat) (w : World) :
  let lim := Some (Z.of_nat n) in
  (forall t, fst (getActivityByTypeServer getTime t lim w) =
             firstn n (fst (getActivityByTypeServer getTime t None w))) /\
  (forall c, fst (getActivityByCategoryServer getTime c lim w) =
             firstn n (fst (getActivityByCategoryServer getTime c None w))) /\
  (forall tag, fst (getActivityByTagServer getTime tag lim w) =
               firstn n (fst (getActivityByTagServer getTime tag None w))) /\
  (forall query, fst (searchActivityServer getTime query lim w) =
                 firstn n (fst (searchActivityServer getTime query None w))).
Proof.
  intros lim. split; [|split; [|split]].
  - intros t. rewrite !getActivityByTypeServer_run. apply limited_nat.
  - intros c. rewrite !getActivityByCategoryServer_run. apply limited_nat.
  - intros tag. rewrite !getActivityByTagServer_run. apply limited_nat.
  - intros query. destruct (allWhite query) eqn:Hq.
    + rewrite !searchActivityServer_guard by now rewrite blankQuery_allWhite.
      simpl. now rewrite firstn_nil.
    + rewrite !searchActivityServer_run by exact Hq. apply limited_nat.
Qed.

(** X14.  [getRecentActivityServer] with a limit at least the size of the
    aggregate returns the whole aggregate, with the limit 0 nothing, and
    with a negative limit [-k] it does not return nothing: it returns the
    aggregate without its last [k] items. *)
Theorem recent_limit_at_the_bounds
  (getTime : string -> option Z) (w : World) :
  let all := fst (loadAllActivity getTime w) in
  (forall n, List.length all <= n ->
             fst (getRecentActivityServer getTime (Some (Z.of_nat n)) w) = all) /\
  fst (getRecentActivityServer getTime (Some 0%Z) w) = [] /\
  (forall k, 0 < k ->
             fst (getRecentActivityServer getTime (Some (- Z.of_nat k)%Z) w) =
             firstn (List.length all - k) all).
Proof.
  intros all. unfold all. split; [|split].
  - intros n Hn. rewrite getRecentActivityServer_run, loadAllActivity_run in *.
    simpl in *. rewrite slice0_nat. now apply firstn_all2.
  - rewrite getRecentActivityServer_run. simpl. apply (slice0_nat _ 0).
  - intros k Hk. rewrite getRecentActivityServer_run, loadAllActivity_run.
    simpl. now apply slice0_negative.
Qed.

(** Of the three items of the sample, the limit -1 keeps the first two. *)
Lemma recent_limit_at_the_bounds_witness :
  map type (fst (getRecentActivityServer IsoDate.getTime (Some (- Z.of_nat 1)%Z)
                   (worldOf sampleConfig)))
  = [Profile; Product] /\
  fst (getRecentActivityServer IsoDate.getTime (Some (- Z.of_nat 1)%Z)
         (worldOf sampleConfig))
  = firstn (List.length (fst (loadAllActivity IsoDate.getTime (worldOf sampleConfig))) - 1)
           (fst (loadAllActivity IsoDate.getTime (worldOf sampleConfig))).
Proof.
  split; [reflexivity|].
  apply (proj2 (proj2 (recent_limit_at_the_bounds
                         IsoDate.getTime (worldOf sampleConfig))) 1).
  lia.
Defined.

(** ** Search, continued *)

Lemma isWhiteSpace_lowerChar (c : ascii) :
  JS.isWhiteSpace (JS.lowerChar c) = JS.isWhiteSpace c.
Proof. destruct c as [[] [] [] [] [] [] [] []]; reflexivity. Qed.

Lemma allWhite_toLowerCase (q : string) :
  allWhite (JS.toLowerCase q) = allWhite q.
Proof.
  unfold allWhite. induction q as [|c q IH]; simpl; [reflexivity|].
  now rewrite isWhiteSpace_lowerChar, IH.
Qed.

(** X15.  The search depends on its query only up to case: two queries
    with the same lowercase form, such as "SVELTE" and "svelte", get the
    same answer and leave the same world. *)
Theorem search_ignores_the_case_of_the_query
  (getTime : string -> option Z) (q1 q2 : string) (limit : option Z) (w : World) :
  JS.toLowerCase q1 = JS.toLowerCase q2 ->
  searchActivityServer getTime q1 limit w = searchActivityServer getTime q2 limit w.
Proof.
  intros H.
  assert (Hw : allWhite q1 = allWhite q2).
  { now rewrite <- (allWhite_toLowerCase q1), <- (allWhite_toLowerCase q2), H. }
  destruct (allWhite q2) eqn:E.
  - rewrite !searchActivityServer_guard; try reflexivity;
      rewrite blankQuery_allWhite; assumption.
  - rewrite !searchActivityServer_run by assumption. now rewrite H.
Qed.

Lemma search_ignores_the_case_of_the_query_witness :
  searchActivityServer IsoDate.getTime "SVELTE" None (worldOf sveltePostConfig)
  = searchActivityServer IsoDate.getTime "svelte" None (worldOf sveltePostConfig).
Proof.
  apply (search_ignores_the_case_of_the_query
           IsoDate.getTime "SVELTE" "svelte" None (worldOf sveltePostConfig)).
  reflexivity.
Defined.

Lemma Infix_trans (a b c : string) : Infix a b -> Infix b c -> Infix a c.
Proof.
  intros (p1 & s1 & ->) (p2 & s2 & ->).
  exists (p2 ++ p1)%string, (s1 ++ s2)%string.
  now rewrite !string_app_assoc.
Qed.

Lemma filter_filter_implied {A} (f g : A -> bool) (l : list A) :
  (forall x, f x = true -> g x = true) ->
  filter f (filter g l) = filter f l.
Proof.
  intros H. induction l as [|x l IH]; simpl; [reflexivity|].
  destruct (g x) eqn:Hg; simpl.
  - now rewrite IH.
  - destruct (f x) eqn:Hf; [|exact IH].
    apply H in Hf. congruence.
Qed.

(** X16.  Extending a query narrows the answer: if the lowercase form of
    [q1], which has a character that is not white space, occurs inside the
    lowercase form of [q2], the answer to [q2] is the answer to [q1]
    filtered again, so every item found for [q2] is found for [q1]. *)
Theorem longer_query_narrows_the_search
  (getTime : string -> option Z) (q1 q2 : string) (w : World) :
  NonBlank q1 ->
  Infix (JS.toLowerCase q1) (JS.toLowerCase q2) ->
  fst (searchActivityServer getTime q2 None w) =
  filter (searchMatches (JS.toLowerCase q2))
         (fst (searchActivityServer getTime q1 None w)).
Proof.
  intros H1 Hin. apply NonBlank_allWhite in H1.
  assert (H2 : allWhite q2 = false).
  { rewrite <- allWhite_toLowerCase. destruct Hin as (pre & post & ->).
    rewrite !allWhite_app, allWhite_toLowerCase, H1.
    now rewrite andb_false_r. }
  rewrite !searchActivityServer_run by assumption. simpl.
  symmetry. apply filter_filter_implied. intros x Hx.
  apply searchMatches_spec in Hx as (text & Ht & Hx).
  apply searchMatches_spec. exists text. split; [exact Ht|].
  now apply (Infix_trans _ (JS.toLowerCase q2)).
Qed.

Lemma longer_query_narrows_the_search_witness :
  fst (searchActivityServer IsoDate.getTime "Svelte Today" None
         (worldOf sveltePostConfig)) =
  filter (searchMatches (JS.toLowerCase "Svelte Today"))
         (fst (searchActivityServer IsoDate.getTime "svelte" None
                 (worldOf sveltePostConfig))).
Proof.
  apply (longer_query_narrows_the_search
           IsoDate.getTime "svelte" "Svelte Today" (worldOf sveltePostConfig)).
  - exists "s"%char. split; [now left | reflexivity].
  - exists "", " today". reflexivity.
Defined.

(** ** Ties in the sort *)

Section SortStable.

Context {A : Type}.
Variable comparefn : A -> A -> option Z.
Variable key : A -> Z.
Variable ok : A -> Prop.
Hypothesis comparefn_key :
  forall x y, ok x -> ok y -> comparefn x y = Some (key y - key x)%Z.
Variable t : Z.

Lemma insert_filter_key (x : A) (l : list A) :
  ok x -> Forall ok l ->
  filter (fun a => key a =? t)%Z (JS.insert comparefn x l) =
  if (key x =? t)%Z then x :: filter (fun a => key a =? t)%Z l
  else filter (fun a => key a =? t)%Z l.
Proof.
  intros Hx Hl. induction Hl as [|y r Hy Hr IH]; simpl.
  - now destruct (key x =? t)%Z.
  - unfold JS.sortCompare. rewrite (comparefn_key x y Hx Hy).
    destruct (Z.ltb_spec (key y - key x) 0) as [Hlt|Hge]; simpl.
    + rewrite IH. destruct (Z.eqb_spec (key x) t) as [Ex|Ex];
        destruct (Z.eqb_spec (key y) t) as [Ey|Ey]; try reflexivity. lia.
    + now destruct (key x =? t)%Z.
Qed.

Lemma fold_insert_filter_key (l acc : list A) :
  Forall ok l -> Forall ok acc ->
  filter (fun a => key a =? t)%Z
         (fold_left (fun acc x => JS.insert comparefn x acc) l acc) =
  rev (filter (fun a => key a =? t)%Z l) ++ filter (fun a => key a =? t)%Z acc.
Proof.
  revert acc. induction l as [|x l IH]; intros acc Hl Hacc; simpl; [reflexivity|].
  inversion Hl as [|? ? Hx Hl']; subst.
  rewrite IH; [|exact Hl'|].
  - rewrite insert_filter_key by assumption.
    destruct (key x =? t)%Z; [|reflexivity].
    simpl. now rewrite <- app_assoc.
  - eapply Permutation_Forall; [symmetry; apply insert_perm | now constructor].
Qed.

(** The elements of one key come out of the sort in the order they went
    in. *)
Lemma sort_stable (l : list A) :
  Forall ok l ->
  filter (fun a => key a =? t)%Z (JS.sort comparefn l) =
  filter (fun a => key a =? t)%Z l.
Proof.
  intros Hl. unfold JS.sort.
  rewrite filter_rev, fold_insert_filter_key by (assumption || constructor).
  simpl. now rewrite app_nil_r, rev_involutive.
Qed.

End SortStable.

(** X17.  With valid dates throughout, the items of the aggregate that
    share a timestamp keep the order in which the sources yield them:
    posts before profiles before products, each in the order of its
    loader's array. *)
Theorem equal_dates_keep_collection_order
  (getTime : string -> option Z) (w : World) (t : Z) :
  forallb (validDate getTime) (derivedItems (_config w) w) = true ->
  let sameTime := filter (fun x => timeOf getTime x =? t)%Z in
  let posts := succeeding (loadBlogPosts (_config w)) in
  let profiles := succeeding (loadProfiles (_config w)) in
  let products := succeeding (loadProducts (_config w)) in
  let w1 := worldAfter blogPostToActivity posts w in
  let w2 := worldAfter profileToActivity profiles w1 in
  sameTime (fst (loadAllActivity getTime w)) =
  sameTime (kept (normalForms blogPostToActivity posts w))
  ++ sameTime (normalForms profileToActivity profiles w1)
  ++ sameTime (normalForms productToActivity products w2).
Proof.
  intros Hv sameTime posts profiles products w1 w2. unfold sameTime.
  rewrite <- !filter_app. change (_ ++ _ ++ _) with (derivedItems (_config w) w).
  rewrite loadAllActivity_run, collectActivity_derivedItems. simpl.
  unfold aggregateOf.
  apply (sort_stable (compareFn getTime) (timeOf getTime)
           (fun x => validDate getTime x = true)).
  - apply compareFn_timeOf.
  - apply Forall_forall. now apply forallb_forall.
Qed.

(** A post and a profile of the same day: the post stays first. *)
Lemma equal_dates_keep_collection_order_witness :
  map type
    (filter (fun x => timeOf IsoDate.getTime x =? 1743465600000)%Z
       (fst (loadAllActivity IsoDate.getTime (worldOf sameDayConfig))))
  = [Post; Profile].
Proof.
  rewrite (equal_dates_keep_collection_order
             IsoDate.getTime (worldOf sameDayConfig) 1743465600000%Z eq_refl).
  reflexivity.
Defined.

(** ** Profiles always have a name *)

Lemma orString_nonempty (a : option string) (d : string) :
  d <> "" -> JS.orString a d <> "".
Proof.
  intros Hd. destruct a as [s|]; simpl; [|exact Hd].
  destruct (String.eqb s "") eqn:E; [exact Hd | now apply String.eqb_neq].
Qed.

Lemma orString_shownName (profile : ProfileItem.t) :
  JS.orString (JS.or (ProfileItem.name profile) (ProfileItem.displayName profile))
              "Community Member" = shownName profile.
Proof.
  unfold shownName.
  destruct (ProfileItem.name profile) as [[|c n]|]; simpl; try reflexivity;
    destruct (ProfileItem.displayName profile) as [[|c' n']|]; reflexivity.
Qed.

Lemma shownName_nonempty (profile : ProfileItem.t) : shownName profile <> "".
Proof.
  unfold shownName.
  destruct (ProfileItem.name profile) as [[|c n]|]; try discriminate;
    destruct (ProfileItem.displayName profile) as [[|c' n']|]; discriminate.
Qed.

(** X18.  Every profile item a query returns has a non-empty title, which
    is also its author, and comes from a loaded profile of which the title
    is the [name] if that is not empty, else the [displayName] if that is
    not empty, else "Community Member": a profile whose [name] and
    [displayName] are missing or empty is titled "Community Member". *)
Theorem profile_items_have_a_title
  (getTime : string -> option Z) (q : Query) (w : World) (x : ActivityItem) :
  In x (fst (runQuery getTime q w)) ->
  type x = Profile ->
  title x <> "" /\ author x = Some (title x) /\
  exists profile,
    In profile (succeeding (loadProfiles (_config w))) /\
    slug x = ProfileItem.slug profile /\
    title x = shownName profile /\
    (JS.truthy (ProfileItem.name profile) = false ->
     JS.truthy (ProfileItem.displayName profile) = false ->
     title x = "Community Member").
Proof.
  intros H Ht. apply runQuery_incl, loadAllActivity_FromSources in H.
  destruct H as [(post & w' & _ & Hh & H)|[(profile & w' & Hin & H)|(product & w' & _ & H)]].
  - unfold blogPostToActivity in H. fold (hidden post) in H. rewrite Hh in H.
    rewrite bind_run in H. simpl in H. inversion H. subst x. discriminate Ht.
  - unfold profileToActivity in H. rewrite bind_run in H. simpl in H.
    subst x. simpl. rewrite orString_shownName.
    split; [apply shownName_nonempty|]. split; [reflexivity|].
    exists profile. split; [exact Hin|]. split; [reflexivity|].
    split; [reflexivity|].
    unfold shownName, JS.truthy.
    destruct (ProfileItem.name profile) as [[|c n]|]; simpl; try discriminate;
      destruct (ProfileItem.displayName profile) as [[|c' n']|]; simpl;
      try discriminate; reflexivity.
  - unfold productToActivity in H. rewrite bind_run in H. simpl in H.
    subst x. discriminate Ht.
Qed.

(** The profile with no [name] and an empty [displayName]. *)
Lemma profile_items_have_a_title_witness :
  title namelessProfileItem = "Community Member" /\
  author namelessProfileItem = Some (title namelessProfileItem).
Proof.
  destruct (profile_items_have_a_title
              IsoDate.getTime (ByType Profile None)
              (worldOf namelessProfileConfig) namelessProfileItem)
    as (_ & Ha & profile & Hin & _ & _ & Hcm).
  - vm_compute. left. reflexivity.
  - reflexivity.
  - split; [|exact Ha].
    destruct Hin as [<-|[]]. apply Hcm; reflexivity.
Defined.

(** ** Unset, failing and empty sources *)

(** X19.  A query's result depends on the configuration only through what
    the succeeding loaders return: under the same clock, a source whose
    loader is unset, one whose loader throws and one whose loader returns
    the empty array give the same result for every query. *)
Theorem result_depends_on_loaded_items_only
  (getTime : string -> option Z) (q : Query) (w w' : World) :
  clock w = clock w' ->
  succeeding (loadBlogPosts (_config w)) = succeeding (loadBlogPosts (_config w')) ->
  succeeding (loadProfiles (_config w)) = succeeding (loadProfiles (_config w')) ->
  succeeding (loadProducts (_config w)) = succeeding (loadProducts (_config w')) ->
  fst (runQuery getTime q w) = fst (runQuery getTime q w').
Proof.
  intros Hc H1 H2 H3. rewrite !runQuery_fst. f_equal.
  destruct (collectActivity_succeeding w) as [-> _].
  destruct (collectActivity_succeeding w') as [-> _].
  rewrite H1, H2, H3. now apply ClockOnly_normalizeSources.
Qed.

(** A throwing post loader against one that returns no post. *)
Lemma result_depends_on_loaded_items_only_witness :
  fst (runQuery IsoDate.getTime (Recent None) (worldOf failingPostsConfig)) =
  fst (runQuery IsoDate.getTime (Recent None)
         (worldOf {| loadBlogPosts := Fn (fun _ => Returns []);
                     loadProfiles := loadProfiles failingPostsConfig;
                     loadProducts := Undefined |})).
Proof.
  apply result_depends_on_loaded_items_only; reflexivity.
Defined.

(** The category "profile" finds the profile of the sample. *)
Lemma by_category_matches_either_field_witness :
  map type (fst (getActivityByCategoryServer IsoDate.getTime "profile" None
                   (worldOf sampleConfig))) = [Profile] /\
  Forall (fun x => type x = Profile ->
                   In x (fst (getActivityByCategoryServer IsoDate.getTime "profile" None
                                (worldOf sampleConfig))))
         (fst (loadAllActivity IsoDate.getTime (worldOf sampleConfig))).
Proof.
  split; [reflexivity|].
  apply Forall_forall. intros x Hx.
  exact (proj1 (proj2 (by_category_matches_either_field
                         IsoDate.getTime (worldOf sampleConfig))) x Hx).
Defined.
